(** * word-press-render: a shallow embedding of the glue code and its properties

    The repository is a set of thin integrations:
    - [server/ai-router.ts], [server/qwen.ts], [server/strategist.ts]:
      a router that forwards a chat prompt to one of two model backends;
    - [production-crm-dashboard.tsx]: a dashboard with a retrying fetch
      helper, a settle-all data load and a realtime reducer for contacts;
    - the checkout handler (Stripe session for a bot record);
    - the WordPress plugin's lead endpoint ([create_contact]), its webhook
      relay and its API keys ([verify_api_key], [generate_api_key]);
    - [server.ts], the HTTP front of the router;
    - the workflows that process leads and advance funnels, with the Groq
      client's [makeRequest] and the email parser [parseEmailContent].

    Part I holds the embedding, one module per component; Part II the
    properties. *)

From Stdlib Require Import ZArith NArith List String Ascii Lia Bool.
From Stdlib Require Import Floats.PrimFloat.
From Stdlib Require DecimalString.
From stdpp Require Import gmap strings list fin_maps.

(* ===================================================================== *)
(** * Part I: the embedding                                               *)
(* ===================================================================== *)

(** ** Effects: state passing with exceptions

    A computation reads and extends a world [W] and either returns or
    throws; the world survives a throw, which is what [try]/[catch] needs. *)
Module Eff.

Inductive completion (E A : Type) : Type :=
| Returned (a : A)
| Thrown (e : E).
Arguments Returned {E A} a.
Arguments Thrown {E A} e.

Definition M (W E A : Type) : Type := W -> completion E A * W.

Definition ret {W E A} (a : A) : M W E A := fun w => (Returned a, w).

Definition throw {W E A} (e : E) : M W E A := fun w => (Thrown e, w).

Definition bind {W E A B} (c : M W E A) (k : A -> M W E B) : M W E B :=
  fun w =>
    match c w with
    | (Returned a, w') => k a w'
    | (Thrown e, w') => (Thrown e, w')
    end.

Definition try_catch {W E A} (body : M W E A) (handler : E -> M W E A) : M W E A :=
  fun w =>
    match body w with
    | (Returned a, w') => (Returned a, w')
    | (Thrown e, w') => handler e w'
    end.

Definition modify {W E} (f : W -> W) : M W E unit := fun w => (Returned tt, f w).

End Eff.

Declare Scope eff_scope.
Delimit Scope eff_scope with eff.
Notation "x <- c ;; k" := (Eff.bind c (fun x => k))
  (at level 100, c at next level, right associativity) : eff_scope.
Notation "c ;;; k" := (Eff.bind c (fun _ => k))
  (at level 100, right associativity) : eff_scope.

(** ** JavaScript values *)
Module JS.

(** A JavaScript string is a sequence of UTF-16 code units; [length] counts
    code units, as [String.prototype.length] does. *)
Definition jsstring : Type := list N.

(** The code units of an ASCII literal of the source. *)
Definition lit (s : string) : jsstring := map N_of_ascii (list_ascii_of_string s).

(** An [Error] object, as far as the code looks at it. *)
Record js_error : Type := mkError { name : jsstring; message : jsstring }.

Definition Error (msg : jsstring) : js_error := mkError (lit "Error") msg.
Definition TypeError (msg : jsstring) : js_error := mkError (lit "TypeError") msg.

(** Values decoded from JSON, with [undefined] for an absent property. A
    number is an IEEE 754 binary64, which is what [float] is. *)
#[warnings="-register-all"]
Inductive jsval : Type :=
| JUndefined
| JNull
| JBool (b : bool)
| JNum (x : float)
| JStr (s : jsstring)
| JArr (items : list jsval)
| JObj (props : gmap string jsval).

(** [o.k] on an object that exists. *)
Definition get (o : gmap string jsval) (k : string) : jsval := default JUndefined (o !! k).

(** [a === b] on values decoded from two different messages: primitives
    compare by value ([NaN] differs from itself, as [PrimFloat.eqb] has it),
    arrays and objects by reference, so two decoded ones never agree. *)
Definition strict_eq (a b : jsval) : bool :=
  match a, b with
  | JUndefined, JUndefined => true
  | JNull, JNull => true
  | JBool x, JBool y => Bool.eqb x y
  | JNum x, JNum y => PrimFloat.eqb x y
  | JStr x, JStr y => bool_decide (x = y)
  | _, _ => false
  end.

(** [String(n)] for a natural number. *)
Definition N_to_jsstring (n : N) : jsstring :=
  lit (DecimalString.NilZero.string_of_uint (N.to_uint n)).

(** [s.includes(t)]: [t] occurs in [s] as a contiguous run of code units. *)
Fixpoint starts_with (t s : jsstring) : bool :=
  match t, s with
  | [], _ => true
  | _ :: _, [] => false
  | a :: t', b :: s' => N.eqb a b && starts_with t' s'
  end.

Fixpoint includes (s t : jsstring) : bool :=
  starts_with t s ||
  match s with
  | [] => false
  | _ :: s' => includes s' t
  end.

End JS.

(** ** The AI router: [qwen.ts], [strategist.ts], [ai-router.ts] *)
Module AIRouter.
Import JS.
Local Open Scope eff_scope.

(** The body posted to the inference endpoint. *)
Record generate_payload : Type := mkPayload {
  model : jsstring;
  prompt : jsstring;
  stream : bool
}.

Record post_call : Type := mkPost { url : jsstring; body : generate_payload }.

(** [response.data] of a resolved post: nullish, or a value whose
    [response] property is absent or a string (the helpers are declared to
    return [Promise<string>]). *)
Inductive reply_data : Type :=
| DataNullish
| DataWith (response : option jsstring).

Inductive axios_result : Type :=
| AxiosResolved (data : reply_data)
| AxiosRejected (err : js_error).

(** The world of the router: what the endpoint answers to the k-th post,
    the posts sent so far and the lines written by [console.error]. *)
Record world : Type := mkWorld {
  inference : nat -> axios_result;
  sent : list post_call;
  console : list (jsstring * jsstring)
}.

Definition M (A : Type) : Type := Eff.M world js_error A.

(** [await axios.post(url, body)] *)
Definition axios_post (u : jsstring) (b : generate_payload) : M reply_data :=
  fun w =>
    let w' := mkWorld (inference w) (sent w ++ [mkPost u b]) (console w) in
    match inference w (length (sent w)) with
    | AxiosResolved d => (Eff.Returned d, w')
    | AxiosRejected e => (Eff.Thrown e, w')
    end.

Definition console_error (label msg : jsstring) : M unit :=
  Eff.modify (fun w => mkWorld (inference w) (sent w) (console w ++ [(label, msg)])).

(** [response.data.response]: reading a property of a nullish value throws. *)
Definition data_response (d : reply_data) : M (option jsstring) :=
  match d with
  | DataNullish =>
      Eff.throw (TypeError (lit "Cannot read properties of undefined (reading 'response')"))
  | DataWith r => Eff.ret r
  end.

(** [r || fallback] where [r] is [undefined] or a string: the empty string
    is falsy. *)
Definition or_else (r : option jsstring) (fallback : jsstring) : jsstring :=
  match r with
  | Some (c :: s) => c :: s
  | Some [] => fallback
  | None => fallback
  end.

Definition endpoint : jsstring := lit "http://localhost:11434/api/generate".

(** The template literal [`Respond in ${language}. ${input}`]. *)
Definition prompt_of (language input : jsstring) : jsstring :=
  lit "Respond in " ++ language ++ lit ". " ++ input.

(** qwen.ts *)
Definition askQwen (input userId : jsstring) (language : option jsstring) : M jsstring :=
  let language := default (lit "en") language in
  Eff.try_catch
    (response <- axios_post endpoint
                   (mkPayload (lit "qwen:0.5b") (prompt_of language input) false) ;;
     r <- data_response response ;;
     Eff.ret (or_else r (lit "No response from Qwen.")))
    (fun err =>
       console_error (lit "Qwen failed:") (message err) ;;;
       Eff.ret (lit "Qwen unavailable.")).

(** strategist.ts *)
Definition askStrategist (input userId : jsstring) (language : option jsstring) : M jsstring :=
  let language := default (lit "en") language in
  Eff.try_catch
    (response <- axios_post endpoint
                   (mkPayload (lit "mixtral") (prompt_of language input) false) ;;
     r <- data_response response ;;
     Eff.ret (or_else r (lit "No response from strategist.")))
    (fun err =>
       console_error (lit "Strategist failed:") (message err) ;;;
       Eff.ret (lit "Strategist unavailable.")).

(** The regular expression [/strategy|plan|sequence|long-form|campaign/i]:
    an alternation of literals, searched at every position. Without the
    [u] flag, ignoring case compares the canonical forms of code units;
    the canonical form of a code unit above 127 is never below 128, so
    against these ASCII literals only the ASCII letters fold. *)
Definition canonicalize (c : N) : N :=
  if (97 <=? c)%N && (c <=? 122)%N then (c - 32)%N else c.

Fixpoint matches_here (pat s : jsstring) : bool :=
  match pat, s with
  | [], _ => true
  | _ :: _, [] => false
  | p :: pat', c :: s' => N.eqb (canonicalize p) (canonicalize c) && matches_here pat' s'
  end.

Fixpoint regex_match (alternatives : list jsstring) (s : jsstring) : bool :=
  existsb (fun pat => matches_here pat s) alternatives ||
  match s with
  | [] => false
  | _ :: s' => regex_match alternatives s'
  end.

Definition keywords : list jsstring :=
  map lit ["strategy"; "plan"; "sequence"; "long-form"; "campaign"]%string.

Record AIRequest : Type := mkRequest {
  userId : jsstring;
  input : jsstring;
  language : option jsstring
}.

(** ai-router.ts *)
Definition routeAIRequest (req : AIRequest) : M jsstring :=
  if (length (input req) <? 280) && negb (regex_match keywords (input req)) then
    quickReply <- askQwen (input req) (userId req) (language req) ;;
    Eff.ret (lit "[Qwen] " ++ quickReply)
  else
    strategicResponse <- askStrategist (input req) (userId req) (language req) ;;
    Eff.ret (lit "[Strategist] " ++ strategicResponse).

(** The posts of a run that went to a given model. *)
Definition posts_to (m : jsstring) (calls : list post_call) : nat :=
  length (List.filter (fun c => bool_decide (model (body c) = m)) calls).

End AIRouter.

(** ** The dashboard: [production-crm-dashboard.tsx] *)
Module Dashboard.
Import JS.
Local Open Scope eff_scope.

(** [config.wordpress] *)
Record wordpress_config : Type := mkConfig { wp_url : jsstring; wp_apiKey : jsstring }.

(** What [fetch] resolves to, as far as [wpFetch] reads it: the status
    line, the [content-type] header and what [response.json()] settles to. *)
Record response : Type := mkResponse {
  status : N;
  statusText : jsstring;
  content_type : option jsstring;
  json : Eff.completion js_error jsval
}.

(** [response.ok] *)
Definition ok (r : response) : bool := (200 <=? status r)%N && (status r <=? 299)%N.

(** A fetch resolves with a response or rejects: with an [AbortError] when
    the abort timer fired first, with some other error when the network
    failed. *)
Inductive fetch_result : Type :=
| FetchResolved (r : response)
| FetchRejected (err : js_error).

Inductive event : Type :=
| SetTimeout (ms : N)
| Fetch (url method : jsstring) (body : option jsval)
| ClearTimeout
| Sleep (ms : N)
| ConsoleError (attempts : nat) (err : js_error).

(** One call of [wpFetch] writes a trace of events. *)
Definition M (A : Type) : Type := Eff.M (list event) js_error A.

Definition emit (e : event) : M unit := Eff.modify (fun tr => tr ++ [e]).

Definition await_fetch (r : fetch_result) : M response :=
  match r with
  | FetchResolved resp => Eff.ret resp
  | FetchRejected err => Eff.throw err
  end.

Definition await_json (r : response) : M jsval :=
  match json r with
  | Eff.Returned v => Eff.ret v
  | Eff.Thrown err => Eff.throw err
  end.

(** [contentType?.includes('application/json')] *)
Definition is_json (r : response) : bool :=
  match content_type r with
  | Some ct => includes ct (lit "application/json")
  | None => false
  end.

(** How one round of the [for] loop ends: with the function's result, or
    by going on to the next round. *)
Inductive round (A : Type) : Type :=
| Done (v : A)
| Continue.
Arguments Done {A} v.
Arguments Continue {A}.

Section WpFetch.

(** What the server answers to attempt [i] of this call. *)
Variable responses : nat -> fetch_result.
Variable url method : jsstring.
Variable body : option jsval.
Variable retries : nat.

(** The body of the loop: the [try] block and its [catch]. *)
Definition attempt (i : nat) : M (round jsval) :=
  Eff.try_catch
    (emit (SetTimeout 10000%N) ;;;
     emit (Fetch url method body) ;;;
     response <- await_fetch (responses i) ;;
     emit ClearTimeout ;;;
     if negb (ok response) then
       if (500 <=? status response)%N && (i <? retries) then
         emit (Sleep (2 ^ N.of_nat i * 1000)%N) ;;;
         Eff.ret Continue
       else
         Eff.throw (Error (lit "HTTP " ++ N_to_jsstring (status response)
                             ++ lit ": " ++ statusText response))
     else if negb (is_json response) then
       Eff.throw (Error (lit "Invalid response format"))
     else
       v <- await_json response ;;
       Eff.ret (Done v))
    (fun err =>
       if i =? retries then
         emit (ConsoleError (retries + 1) err) ;;;
         Eff.throw err
       else if bool_decide (name err = lit "AbortError") then
         Eff.throw (Error (lit "Request timeout"))
       else
         Eff.ret Continue).

(** [for (let i = 0; i <= retries; i++)], with [remaining] the number of
    rounds still to run; falling out of the loop returns [undefined]. *)
Fixpoint wpFetch_loop (remaining i : nat) : M jsval :=
  match remaining with
  | 0 => Eff.ret JUndefined
  | S remaining' =>
      r <- attempt i ;;
      match r with
      | Done v => Eff.ret v
      | Continue => wpFetch_loop remaining' (S i)
      end
  end.

End WpFetch.

Definition is_empty (s : jsstring) : bool :=
  match s with
  | [] => true
  | _ :: _ => false
  end.

Definition wpFetch (cfg : wordpress_config) (responses : nat -> fetch_result)
    (endpoint method : jsstring) (body : option jsval) (retries : nat) : M jsval :=
  if is_empty (wp_url cfg) || is_empty (wp_apiKey cfg) then
    Eff.throw (Error (lit "WordPress configuration missing"))
  else
    let url := wp_url cfg ++ lit "/wp-json/enterprise-crm/v1" ++ endpoint in
    wpFetch_loop responses url method body retries (S retries) 0.

(** [retries = 3] is the default every caller uses. *)
Definition default_retries : nat := 3.

(** The [Fetch] events of a trace, that is, the attempts made. *)
Definition attempts_made (tr : list event) : nat :=
  length (List.filter (fun e => match e with Fetch _ _ _ => true | _ => false end) tr).

(** A record of the [contacts] table. *)
Abbreviation row := (gmap string jsval).

(** The component state of [Dashboard]. *)
Record state : Type := mkState {
  contacts : list row;
  campaigns : jsval;
  funnels : jsval;
  analytics : jsval;
  loading : bool;
  error : option jsstring;
  retryCount : nat
}.

Record ui_state : Type := mkUI { refreshing : bool; selectedTimeRange : jsstring }.

(** What [Promise.allSettled] reports for one promise. *)
Inductive settled : Type :=
| Fulfilled (value : jsval)
| Rejected (reason : js_error).

Definition settle (c : Eff.completion js_error jsval) : settled :=
  match c with
  | Eff.Returned v => Fulfilled v
  | Eff.Thrown e => Rejected e
  end.

Record wp_data : Type := mkWpData {
  wp_campaigns : jsval;
  wp_funnels : jsval;
  wp_analytics : jsval
}.

(** The [.then(results => ...)] after [Promise.allSettled]. *)
Definition settled_to_data (r0 r1 r2 : settled) : wp_data :=
  mkWpData
    (match r0 with Fulfilled v => v | Rejected _ => JArr [] end)
    (match r1 with Fulfilled v => v | Rejected _ => JArr [] end)
    (match r2 with Fulfilled v => v | Rejected _ => JObj ∅ end).

(** What the contacts query resolves to: [{ data, error }]. *)
Record query_result : Type := mkQuery {
  data : option (list row);
  query_error : option js_error
}.

(** The first promise: the contacts query, or [{ contacts: [] }] when there
    is no client. *)
Definition supabase_promise (supabase : option query_result)
  : Eff.completion js_error (list row) :=
  match supabase with
  | Some q =>
      match query_error q with
      | Some err => Eff.Thrown err
      | None => Eff.Returned (default [] (data q))
      end
  | None => Eff.Returned []
  end.

(** [fetchData(isRefresh)]: the three WordPress fetches run against their
    own servers ([network] gives the answers by endpoint and attempt), then
    the state updates are applied in order. *)
Definition fetchData (cfg : wordpress_config) (network : jsstring -> nat -> fetch_result)
    (supabase : option query_result) (isRefresh : bool)
    (prev : state * ui_state) : state * ui_state :=
  let (st, ui) := prev in
  let st1 := mkState (contacts st) (campaigns st) (funnels st) (analytics st)
                     (negb isRefresh) None (retryCount st) in
  let get e := settle (fst (wpFetch cfg (network e) e (lit "GET") None default_retries [])) in
  let wpData :=
    settled_to_data
      (get (lit "/campaigns"))
      (get (lit "/funnels"))
      (get (lit "/analytics?range=" ++ selectedTimeRange ui)) in
  let st2 :=
    match supabase_promise supabase with
    | Eff.Returned cs =>
        mkState cs (wp_campaigns wpData) (wp_funnels wpData) (wp_analytics wpData)
                false (error st1) 0
    | Eff.Thrown err =>
        mkState (contacts st1) (campaigns st1) (funnels st1) (analytics st1) false
                (Some (match message err with [] => lit "Failed to load data" | m => m end))
                (retryCount st1 + 1)
    end in
  (st2, mkUI false (selectedTimeRange ui)).

(** A change notification of the [contacts] table. The realtime client
    delivers [new] and [old] as objects (the record, or [{}]), so the
    [?.] of the source never short-circuits. *)
Record change_payload : Type := mkChange {
  eventType : jsstring;
  new : row;
  old : row
}.

(** The updater passed to [setState] by the [postgres_changes] handler. *)
Definition on_contacts_change (payload : change_payload) (prev : state) : state :=
  let newContacts := contacts prev in
  let with_contacts cs :=
    mkState cs (campaigns prev) (funnels prev) (analytics prev)
            (loading prev) (error prev) (retryCount prev) in
  if bool_decide (eventType payload = lit "DELETE") then
    with_contacts
      (List.filter (fun c => negb (strict_eq (get c "id") (get (old payload) "id"))) newContacts)
  else if bool_decide (eventType payload = lit "INSERT") then
    with_contacts (new payload :: take 99 newContacts)
  else if bool_decide (eventType payload = lit "UPDATE") then
    with_contacts
      (map (fun c => if strict_eq (get c "id") (get (new payload) "id")
                     then new payload else c) newContacts)
  else prev.

End Dashboard.

(** ** The checkout handler *)
Module Checkout.
Import JS.
Local Open Scope eff_scope.

(** A row of the [bots] table, as far as the handler reads it. *)
Record bot : Type := mkBot { title : jsval; description : jsval; price : float }.

Record product_data : Type := mkProduct { product_name : jsval; product_description : jsval }.

Record price_data : Type := mkPrice {
  currency : jsstring;
  product : product_data;
  unit_amount : float
}.

Record line_item : Type := mkItem { item_price : price_data; quantity : N }.

(** The argument of [stripe.checkout.sessions.create]. *)
Record session_params : Type := mkParams {
  payment_method_types : list jsstring;
  line_items : list line_item;
  mode : jsstring;
  success_url : jsstring;
  cancel_url : jsstring;
  metadata : jsval * jsval
}.

Record session : Type := mkSession { id : jsstring }.

Inductive event : Type :=
| SelectBot (bot_id : jsval)
| CreateSession (params : session_params)
| ResJson (session_id : jsstring).

(** The services behind the handler: the [bots] table ([data] of
    [.single()] is [null] unless exactly one row matches) and Stripe, which
    answers with a session or rejects. *)
Record services : Type := mkServices {
  bots : jsval -> option bot;
  stripe : session_params -> Eff.completion js_error session
}.

Definition M (A : Type) : Type := Eff.M (list event) js_error A.

Definition emit (e : event) : M unit := Eff.modify (fun tr => tr ++ [e]).

(** [await supabase.from('bots').select('*').eq('id', bot_id).single()] *)
Definition select_single (sv : services) (bot_id : jsval) : M (option bot) :=
  emit (SelectBot bot_id) ;;;
  Eff.ret (bots sv bot_id).

(** The first property read from [bot], [bot.title]: it throws when [bot]
    is [null]. *)
Definition deref (b : option bot) : M bot :=
  match b with
  | Some r => Eff.ret r
  | None => Eff.throw (TypeError (lit "Cannot read properties of null (reading 'title')"))
  end.

Definition sessions_create (sv : services) (p : session_params) : M session :=
  emit (CreateSession p) ;;;
  match stripe sv p with
  | Eff.Returned s => Eff.ret s
  | Eff.Thrown err => Eff.throw err
  end.

Definition handler (sv : services) (bot_id user_id : jsval) : M unit :=
  data <- select_single sv bot_id ;;
  bot <- deref data ;;
  session <- sessions_create sv
    (mkParams
       [lit "card"]
       [mkItem
          (mkPrice (lit "usd")
                   (mkProduct (title bot) (description bot))
                   (PrimFloat.mul (price bot) 100))
          1]
       (lit "payment")
       (lit "https://zapscout.io/success?session_id={CHECKOUT_SESSION_ID}")
       (lit "https://zapscout.io/cancel")
       (bot_id, user_id)) ;;
  emit (ResJson (id session)).

(** The sessions a run asked Stripe to create. *)
Definition created (tr : list event) : list session_params :=
  omap (fun e => match e with CreateSession p => Some p | _ => None end) tr.

(** The responses a run sent. *)
Definition responded (tr : list event) : list jsstring :=
  omap (fun e => match e with ResJson i => Some i | _ => None end) tr.

End Checkout.

(** ** The lead endpoint of the WordPress plugin: [create_contact] *)
Module Leads.
Local Open Scope eff_scope.
Local Open Scope string_scope.

(** PHP values as [json_decode] produces them. *)
#[warnings="-register-all"]
Inductive phpval : Type :=
| PNull
| PBool (b : bool)
| PInt (z : Z)
| PFloat (x : float)
| PStr (s : string)
| PArr (items : list phpval).

(** [$params[k]] for a key that may be missing. *)
Abbreviation params := (gmap string phpval).

(** PHP's [empty()]: unset, [null], [false], [0], [0.0], [""], ["0"] and
    the empty array. *)
Definition empty (v : option phpval) : bool :=
  match v with
  | None => true
  | Some PNull => true
  | Some (PBool b) => negb b
  | Some (PInt z) => Z.eqb z 0
  | Some (PFloat x) => PrimFloat.eqb x 0
  | Some (PStr s) => bool_decide (s = "") || bool_decide (s = "0")
  | Some (PArr items) => match items with [] => true | _ :: _ => false end
  end.

(** [$v ?? $d] *)
Definition coalesce (v : option phpval) (d : phpval) : phpval :=
  match v with
  | None => d
  | Some PNull => d
  | Some x => x
  end.

Record wp_error : Type := mkWpError {
  error_code : string;
  error_message : string;
  error_status : option Z
}.

Record webhook_payload : Type := mkWebhook {
  event : string;
  contact_id : Z;
  lead : params;
  wordpress_url : string;
  created_at : string;
  timestamp : string;
  source : string;
  site_url : string
}.

(** The calls into WordPress that change or send something. *)
Inductive wp_call : Type :=
| GetPosts (post_type meta_key : string) (meta_value : option phpval) (posts_per_page : Z)
| WpUpdatePost (ID : Z) (post_modified : string)
| WpInsertPost (post_type : string) (post_title : option phpval) (post_status : string)
               (meta_input : list (string * phpval))
| WpRemotePost (url : string) (payload : webhook_payload) (timeout : Z) (blocking : bool)
| WpScheduleSingleEvent (delay : Z) (hook : string) (payload : webhook_payload)
| DoAction (hook : string) (id : Z) (p : params)
| ErrorLog (msg : string).

(** The WordPress installation the plugin runs in: the library functions
    it calls and what the site answers during one request. *)
Record wordpress : Type := mkWordpress {
  sanitize_email : phpval -> string;
  sanitize_text_field : phpval -> string;
  json_encode : params -> string;
  current_time : string;
  home_url : string;
  pipedream_webhook_url : option phpval;
  existing_posts : option phpval -> list Z;
  insert_result : Z + wp_error;
  remote_post_result : unit + wp_error
}.

(** What the callback hands back to the REST server. *)
Inductive rest_result : Type :=
| WP_Error (e : wp_error)
| WP_REST_Response (success : bool) (contact_id : Z) (message : string)
                   (webhook_triggered : bool) (status : Z).

Definition M (A : Type) : Type := Eff.M (list wp_call) string A.

Definition call (c : wp_call) : M unit := Eff.modify (fun log => (log ++ [c])%list).

Section Plugin.

Variable wp : wordpress.

Definition trigger_pipedream_webhook (ev : string) (id : Z) (p : params)
  : M (unit + wp_error) :=
  if empty (pipedream_webhook_url wp) then
    call (ErrorLog "Enterprise CRM: Pipedream webhook URL not configured") ;;;
    Eff.ret (inr (mkWpError "webhook_not_configured" "Webhook URL not set" None))
  else
    let payload :=
      mkWebhook ev id p (home_url wp) (current_time wp)
                (current_time wp) "wordpress" (home_url wp) in
    call (WpRemotePost
            (match pipedream_webhook_url wp with Some (PStr u) => u | _ => "" end)
            payload 30 false) ;;;
    match remote_post_result wp with
    | inr err =>
        call (ErrorLog ("Enterprise CRM - Webhook failed: " ++ error_message err)) ;;;
        call (WpScheduleSingleEvent 300 "enterprise_crm_retry_webhook" payload) ;;;
        Eff.ret (inr err)
    | inl r => Eff.ret (inl r)
    end.

Definition create_contact (p : params) : M rest_result :=
  Eff.try_catch
    (if empty (p !! "email") || empty (p !! "first_name") then
       Eff.ret (WP_Error (mkWpError "missing_required_fields"
                                    "Email and first_name are required" (Some 400%Z)))
     else
       call (GetPosts "crm_contacts" "email" (p !! "email") 1) ;;;
       contact_id <-
         match existing_posts wp (p !! "email") with
         | existing0 :: _ =>
             call (WpUpdatePost existing0 (current_time wp)) ;;;
             Eff.ret (inl existing0)
         | [] =>
             call (WpInsertPost "crm_contacts" (p !! "email") "publish"
                     [("email", PStr (sanitize_email wp (coalesce (p !! "email") PNull)));
                      ("first_name",
                       PStr (sanitize_text_field wp (coalesce (p !! "first_name") PNull)));
                      ("last_name",
                       PStr (sanitize_text_field wp (coalesce (p !! "last_name") (PStr ""))));
                      ("phone",
                       PStr (sanitize_text_field wp (coalesce (p !! "phone") (PStr ""))));
                      ("company",
                       PStr (sanitize_text_field wp (coalesce (p !! "company") (PStr ""))));
                      ("source",
                       PStr (sanitize_text_field wp (coalesce (p !! "source") (PStr "unknown"))));
                      ("tags", coalesce (p !! "tags") (PArr []));
                      ("custom_fields", coalesce (p !! "custom_fields") (PArr []));
                      ("created_at", PStr (current_time wp));
                      ("status", PStr "active")]) ;;;
             Eff.ret (insert_result wp)
         end ;;
       match contact_id with
       | inr err => Eff.throw ("Failed to create contact: " ++ error_message err)
       | inl id =>
           webhook_response <- trigger_pipedream_webhook "lead_created" id p ;;
           call (DoAction "enterprise_crm_contact_created" id p) ;;;
           Eff.ret (WP_REST_Response true id "Contact created successfully"
                      (match webhook_response with inl _ => true | inr _ => false end) 201)
       end)
    (fun e =>
       call (ErrorLog ("Enterprise CRM - Contact creation failed: " ++ e)) ;;;
       call (ErrorLog ("Enterprise CRM - Request data: " ++ json_encode wp p)) ;;;
       Eff.ret (WP_Error (mkWpError "contact_creation_failed"
                                    ("Failed to process contact: " ++ e) (Some 500%Z)))).

End Plugin.

(** The calls of a log that create or update a contact record. *)
Definition writes (log : list wp_call) : list wp_call :=
  List.filter (fun c => match c with
                        | WpUpdatePost _ _ | WpInsertPost _ _ _ _ => true
                        | _ => false
                        end) log.

End Leads.

(** ** Reading the log of the lead endpoint *)
Module LeadsLog.
Import Leads.

(** The payloads handed to [wp_remote_post]. *)
Definition remote_posts (log : list wp_call) : list webhook_payload :=
  omap (fun c => match c with WpRemotePost _ p _ _ => Some p | _ => None end) log.

(** The retries queued with [wp_schedule_single_event]: delay and payload. *)
Definition scheduled_retries (log : list wp_call) : list (Z * webhook_payload) :=
  omap (fun c => match c with WpScheduleSingleEvent d _ p => Some (d, p) | _ => None end) log.

(** The contact ids announced with [do_action]. *)
Definition announced (log : list wp_call) : list Z :=
  omap (fun c => match c with DoAction _ id _ => Some id | _ => None end) log.

(** The HTTP status a result carries. *)
Definition status_of (r : rest_result) : option Z :=
  match r with
  | WP_Error e => error_status e
  | WP_REST_Response _ _ _ _ s => Some s
  end.

End LeadsLog.

(** ** API keys of the plugin: [verify_api_key] and [generate_api_key] *)
Module ApiKeys.
Import Leads.
Local Open Scope eff_scope.
Local Open Scope string_scope.

(** A row of the table created by [create_tables]. *)
Record key_row : Type := mkKey {
  id : Z;
  api_key : string;
  key_name : string;
  permissions : string;
  created_at : string;
  last_used : option string;
  is_active : bool
}.

(** What the plugin gets from WordPress and the database during a call:
    how the column's collation compares two keys, the clock, the password
    generator, the JSON encoder and what [$wpdb->insert] does ([None] when
    it returns [false], else the id the row received). *)
Record database : Type := mkDatabase {
  sql_eq : string -> string -> bool;
  now : string;
  wp_generate_password : string;
  encode_permissions : list string -> string;
  insert_outcome : option Z
}.

Inductive permission : Type :=
| Allowed
| Denied (e : wp_error).

(** The state is the rows of the keys table. *)
Definition M (A : Type) : Type := Eff.M (list key_row) string A.

(** [!$api_key] on a header value: [null], [""] and ["0"] are falsy. *)
Definition falsy (h : option string) : bool :=
  match h with
  | None => true
  | Some s => bool_decide (s = "") || bool_decide (s = "0")
  end.

(** [SELECT * FROM keys WHERE api_key = %s AND is_active = 1], first row. *)
Definition get_row (db : database) (key : string) : M (option key_row) :=
  fun table =>
    (Eff.Returned (List.find (fun r => sql_eq db (api_key r) key && is_active r) table),
     table).

(** [$wpdb->update(keys, {last_used: now}, {id: ...})] *)
Definition update_last_used (db : database) (row_id : Z) : M unit :=
  Eff.modify
    (map (fun r =>
            if Z.eqb (id r) row_id
            then mkKey (id r) (api_key r) (key_name r) (permissions r) (created_at r)
                       (Some (now db)) (is_active r)
            else r)).

Definition verify_api_key (db : database) (header : option string) : M permission :=
  if falsy header then
    Eff.ret (Denied (mkWpError "missing_api_key" "API key required" (Some 401%Z)))
  else
    key_data <- get_row db (default "" header) ;;
    match key_data with
    | None => Eff.ret (Denied (mkWpError "invalid_api_key" "Invalid API key" (Some 401%Z)))
    | Some k =>
        update_last_used db (id k) ;;;
        Eff.ret Allowed
    end.

(** [$wpdb->insert]: [false] and no row, or a new last row. *)
Definition insert (db : database) (key name perms : string) : M bool :=
  fun table =>
    match insert_outcome db with
    | None => (Eff.Returned false, table)
    | Some new_id =>
        (Eff.Returned true,
         (table ++ [mkKey new_id key name perms (now db) None true])%list)
    end.

Definition generate_api_key (db : database) (name : string) (perms : list string)
  : M (string + wp_error) :=
  let key := wp_generate_password db in
  result <- insert db key name (encode_permissions db perms) ;;
  if result then Eff.ret (inl key)
  else Eff.ret (inr (mkWpError "key_generation_failed" "Failed to generate API key" None)).

(** The columns of a row that decide whether a key is accepted. *)
Definition credentials (r : key_row) : string * bool := (api_key r, is_active r).

End ApiKeys.

(** ** The HTTP front of the router: [server.ts] *)
Module ApiServer.
Import JS AIRouter.
Local Open Scope eff_scope.

(** [req.body] after [bodyParser.json()], for the bodies this module
    covers: those of the declared type [AIRequest], whose [input] is a
    string, and those that leave [input] out. A body whose [input] is
    another JSON value (null, a number, an array, an object) is not
    covered. *)
Record request_body : Type := mkBody {
  body_userId : jsstring;
  body_input : option jsstring;
  body_language : option jsstring
}.

Inductive reply : Type :=
| Ok200 (response : jsstring)
| Failed (status : N) (error : jsstring).

(** [routeAIRequest(req.body)]: reading [input.length] of an absent input
    throws. *)
Definition route_body (b : request_body) : M jsstring :=
  match body_input b with
  | None =>
      Eff.throw (TypeError (lit "Cannot read properties of undefined (reading 'length')"))
  | Some i => routeAIRequest (mkRequest (body_userId b) i (body_language b))
  end.

(** The handler of [POST /api/ai]. *)
Definition post_api_ai (b : request_body) : M reply :=
  Eff.try_catch
    (response <- route_body b ;;
     Eff.ret (Ok200 response))
    (fun err =>
       console_error (lit "Router error:") (message err) ;;;
       Eff.ret (Failed 500 (lit "AI routing failed"))).

End ApiServer.

(** ** The dashboard: event streams, the error screen and the funnel trigger *)
Module DashboardViews.
Import JS Dashboard.
Local Open Scope eff_scope.

(** The state after a run of change notifications, oldest first. *)
Definition after_changes (events : list change_payload) (st : state) : state :=
  fold_left (fun s e => on_contacts_change e s) events st.

(** [state.error && state.retryCount >= 3], the test for the error screen. *)
Definition shows_error_screen (st : state) : bool :=
  match error st with
  | Some (_ :: _) => 3 <=? retryCount st
  | Some [] => false
  | None => false
  end.

(** The milliseconds a run spent in [Sleep]. *)
Definition slept (tr : list event) : N :=
  fold_right (fun e acc => match e with Sleep ms => (ms + acc)%N | _ => acc end) 0%N tr.

(** [!!v] *)
Definition truthy (v : jsval) : bool :=
  match v with
  | JUndefined => false
  | JNull => false
  | JBool b => b
  | JNum x => PrimFloat.eqb x x && negb (PrimFloat.eqb x 0)
  | JStr s => negb (is_empty s)
  | JArr _ => true
  | JObj _ => true
  end.

(** What the two action handlers return. *)
Record action_result : Type := mkResult {
  success : bool;
  result_data : option jsval;
  result_error : option jsstring
}.

(** [handleTriggerFunnel(funnelId, contactIds)], with the funnel id as it
    prints in the URL. *)
Definition handleTriggerFunnel (cfg : wordpress_config) (responses : nat -> fetch_result)
    (funnelId : jsstring) (contactIds : jsval) : Eff.M (list event) js_error action_result :=
  Eff.try_catch
    (result <- wpFetch cfg responses (lit "/funnels/" ++ funnelId ++ lit "/trigger")
                       (lit "POST") (Some (JObj (<["contactIds" := contactIds]> ∅)))
                       default_retries ;;
     Eff.ret (mkResult (truthy result) (Some result) None))
    (fun err => Eff.ret (mkResult false None (Some (message err)))).

End DashboardViews.

(** ** The Groq client of the workflows: [GroqAIService.makeRequest] *)
Module Groq.
Import JS.
Local Open Scope eff_scope.

(** What [fetch] resolves to, as far as [makeRequest] reads it. *)
Record response : Type := mkResponse {
  status : N;
  text : Eff.completion js_error jsstring;
  json : Eff.completion js_error jsval
}.

Definition ok (r : response) : bool := (200 <=? status r)%N && (status r <=? 299)%N.

Inductive fetch_result : Type :=
| FetchResolved (r : response)
| FetchRejected (err : js_error).

Inductive event : Type :=
| Fetch (url : jsstring) (data : jsval)
| Sleep (ms : N).

Definition M (A : Type) : Type := Eff.M (list event) js_error A.

Definition emit (e : event) : M unit := Eff.modify (fun tr => tr ++ [e]).

Definition await {A} (c : Eff.completion js_error A) : M A :=
  match c with
  | Eff.Returned a => Eff.ret a
  | Eff.Thrown err => Eff.throw err
  end.

Definition baseURL : jsstring := lit "https://api.groq.com/openai/v1".

Section MakeRequest.

(** What the API answers to attempt number [attempt]. *)
Variable responses : nat -> fetch_result.
Variable endpoint : jsstring.
Variable data : jsval.
Variable retries : nat.

(** The [try] block of one round. *)
Definition try_once (attempt : nat) : M jsval :=
  emit (Fetch (baseURL ++ endpoint) data) ;;;
  response <- match responses attempt with
              | FetchResolved r => Eff.ret r
              | FetchRejected err => Eff.throw err
              end ;;
  if negb (ok response) then
    errorText <- await (text response) ;;
    Eff.throw (Error (lit "HTTP " ++ N_to_jsstring (status response) ++ lit ": " ++ errorText))
  else
    await (json response).

(** [for (let attempt = 0; attempt <= retries; attempt++)], with
    [remaining] the rounds still to run. *)
Fixpoint makeRequest_loop (remaining attempt : nat) : M jsval :=
  match remaining with
  | 0 => Eff.ret JUndefined
  | S remaining' =>
      r <- Eff.try_catch
             (v <- try_once attempt ;; Eff.ret (Some v))
             (fun error =>
                if attempt =? retries then Eff.throw error
                else
                  emit (Sleep (2 ^ N.of_nat attempt * 1000)%N) ;;;
                  Eff.ret None) ;;
      match r with
      | Some v => Eff.ret v
      | None => makeRequest_loop remaining' (S attempt)
      end
  end.

Definition makeRequest : M jsval := makeRequest_loop (S retries) 0.

(** How the [try] block of a round ends, read off the answer alone. *)
Definition outcome (attempt : nat) : Eff.completion js_error jsval :=
  match responses attempt with
  | FetchRejected err => Eff.Thrown err
  | FetchResolved r =>
      if negb (ok r) then
        match text r with
        | Eff.Returned errorText =>
            Eff.Thrown (Error (lit "HTTP " ++ N_to_jsstring (status r) ++ lit ": " ++ errorText))
        | Eff.Thrown err => Eff.Thrown err
        end
      else json r
  end.

(** The events of the failed rounds [from], ..., [from + count - 1]: a
    fetch and the wait after it. *)
Definition failed_rounds (from count : nat) : list event :=
  flat_map (fun j => [Fetch (baseURL ++ endpoint) data; Sleep (2 ^ N.of_nat j * 1000)%N])
           (seq from count).

End MakeRequest.

(** [retries = 2] is the default. *)
Definition default_retries : nat := 2.

Definition slept (tr : list event) : N :=
  fold_right (fun e acc => match e with Sleep ms => (ms + acc)%N | Fetch _ _ => acc end) 0%N tr.

Definition fetches (tr : list event) : nat :=
  length (List.filter (fun e => match e with Fetch _ _ => true | Sleep _ => false end) tr).

End Groq.

(** ** The email parser of the funnel workflow: [parseEmailContent] *)
Module EmailParser.
Import JS.

(** The code units [\s] matches and [trim] strips: white space and line
    terminators. *)
Definition is_space (c : N) : bool :=
  ((9 <=? c) && (c <=? 13) || (c =? 32) || (c =? 160) || (c =? 5760)
   || (8192 <=? c) && (c <=? 8202) || (c =? 8232) || (c =? 8233) || (c =? 8239)
   || (c =? 8287) || (c =? 12288) || (c =? 65279))%N.

Fixpoint trim_start (s : jsstring) : jsstring :=
  match s with
  | [] => []
  | c :: s' => if is_space c then trim_start s' else s
  end.

(** [s.trim()] *)
Definition trim (s : jsstring) : jsstring := rev (trim_start (rev (trim_start s))).

(** A string with no white space at either end. *)
Definition tight (s : jsstring) : Prop :=
  match s with [] => True | c :: _ => is_space c = false end /\
  match rev s with [] => True | c :: _ => is_space c = false end.

(** [content.split('\n')] *)
Fixpoint split_lines (s : jsstring) : list jsstring :=
  match s with
  | [] => [[]]
  | c :: s' =>
      if (c =? 10)%N then [] :: split_lines s'
      else match split_lines s' with
           | line :: lines => (c :: line) :: lines
           | [] => [[c]]
           end
  end.

(** [line.toLowerCase().includes(marker)] for the markers of the source,
    "subject:" and "body:". Lower-casing maps no code unit outside ASCII
    to a letter of these markers, so the test is whether the line holds
    the marker up to ASCII case. *)
Definition mentions (line : jsstring) (marker : string) : bool :=
  AIRouter.regex_match [lit marker] line.

(** [line.replace(/subject:\s*/i, '')]: the leftmost occurrence of the
    marker goes, with the white space after it. *)
Fixpoint remove_marker (marker line : jsstring) : jsstring :=
  if AIRouter.matches_here marker line then trim_start (drop (length marker) line)
  else match line with
       | [] => []
       | c :: line' => c :: remove_marker marker line'
       end.

(** The variables of the loop. *)
Record scan : Type := mkScan { subject : jsstring; body : jsstring; inBody : bool }.

(** One round of [for (const line of lines)]. *)
Definition scan_line (st : scan) (line : jsstring) : scan :=
  if mentions line "subject:" then
    mkScan (trim (remove_marker (lit "subject:") line)) (body st) (inBody st)
  else if mentions line "body:" || inBody st then
    if negb (inBody st) then mkScan (subject st) (body st) true
    else mkScan (subject st) (body st ++ line ++ [10%N]) (inBody st)
  else st.

Record email_parts : Type := mkParts { parts_subject : jsstring; parts_body : jsstring }.

(** [a || b] on strings. *)
Definition or_default (a b : jsstring) : jsstring :=
  match a with
  | [] => b
  | _ :: _ => a
  end.

Definition parseEmailContent (content : jsstring) : email_parts :=
  let final := fold_left scan_line (split_lines content) (mkScan [] [] false) in
  mkParts (or_default (subject final) (lit "Your Next Step"))
          (or_default (trim (body final)) content).

End EmailParser.

(** ** The lead workflow: [run] and [determineFunnelType] *)
Module LeadWorkflow.
Import JS.
Local Open Scope eff_scope.

(** [steps.trigger.event.body.data], as far as the workflow reads it. *)
Record lead : Type := mkLead {
  email : option jsstring;
  first_name : option jsstring;
  last_name : option jsstring;
  phone : option jsstring;
  source : option jsstring;
  tags : jsval;
  custom_fields : jsval
}.

(** [s || d] for a string that may be absent: absent and empty are falsy. *)
Definition or_string (s : option jsstring) (d : jsstring) : jsstring :=
  match s with
  | Some (c :: t) => c :: t
  | Some [] => d
  | None => d
  end.

(** [!s] *)
Definition missing (s : option jsstring) : bool :=
  match s with
  | Some (_ :: _) => false
  | Some [] => true
  | None => true
  end.

(** [v || d] on values. *)
Definition or_value (v d : jsval) : jsval := if DashboardViews.truthy v then v else d.

(** [`${s}`] for a string that may be absent. *)
Definition shown (s : option jsstring) : jsstring := default (lit "undefined") s.

(** What [funnelMapping[source] || 'default_welcome_sequence'] yields: a
    sequence name, or, for a source that names a member of
    [Object.prototype], that inherited member. *)
Inductive funnel_type : Type :=
| Sequence (name : jsstring)
| Inherited (member : jsstring).

Definition funnelMapping : list (jsstring * jsstring) :=
  [(lit "landing_page_a", lit "premium_welcome_sequence");
   (lit "blog_signup", lit "content_nurture_sequence");
   (lit "webinar", lit "webinar_followup_sequence");
   (lit "social_media", lit "social_engagement_sequence");
   (lit "referral", lit "referral_welcome_sequence")].

(** The properties every object literal inherits. *)
Definition object_prototype : list jsstring :=
  map lit ["constructor"; "__defineGetter__"; "__defineSetter__"; "hasOwnProperty";
           "__lookupGetter__"; "__lookupSetter__"; "isPrototypeOf";
           "propertyIsEnumerable"; "toString"; "valueOf"; "__proto__";
           "toLocaleString"]%string.

Fixpoint own (m : list (jsstring * jsstring)) (key : jsstring) : option jsstring :=
  match m with
  | [] => None
  | (k, v) :: m' => if bool_decide (k = key) then Some v else own m' key
  end.

Definition determineFunnelType (source : option jsstring) : funnel_type :=
  let key := shown source in
  match own funnelMapping key with
  | Some name => Sequence name
  | None =>
      if bool_decide (key ∈ object_prototype) then Inherited key
      else Sequence (lit "default_welcome_sequence")
  end.

(** The row handed to [upsert]. *)
Record contact_row : Type := mkRow {
  row_email : jsstring;
  row_first_name : jsstring;
  row_last_name : jsstring;
  row_phone : jsstring;
  row_source : jsstring;
  row_tags : jsval;
  row_custom_fields : jsval
}.

(** What [.upsert(...).select().single()] resolves to. *)
Record upsert_result : Type := mkUpserted {
  contact_id : option jsval;
  supabaseError : option js_error
}.

(** The apps behind the workflow, each answering or throwing. *)
Record apps : Type := mkApps {
  upsert : contact_row -> upsert_result;
  addSubscriber : Eff.completion js_error unit;
  generateContent : Eff.completion js_error jsval;
  triggerFunnelSequence : Eff.completion js_error unit;
  logActivity : Eff.completion js_error unit
}.

Inductive event : Type :=
| Upsert (row : contact_row)
| Subscribe (email name : jsstring) (groups : list jsstring)
| Generate (prompt : jsstring)
| TriggerFunnel (contact : jsval) (funnel : funnel_type)
| LogActivity (contact : jsval) (source : option jsstring) (funnel : funnel_type)
| LogError
| AdminAlert
| ConsoleError (label message : jsstring).

Definition M (A : Type) : Type := Eff.M (list event) js_error A.

Definition emit (e : event) : M unit := Eff.modify (fun tr => tr ++ [e]).

Definition await {A} (c : Eff.completion js_error A) : M A :=
  match c with
  | Eff.Returned a => Eff.ret a
  | Eff.Thrown err => Eff.throw err
  end.

Record summary : Type := mkSummary {
  summary_contact : jsval;
  funnel_triggered : funnel_type
}.

(** The [try] block of [run]. *)
Definition process (a : apps) (data : option lead) : M summary :=
  leadData <- match data with
              | Some l => Eff.ret l
              | None =>
                  Eff.throw (TypeError (lit "Cannot read properties of undefined (reading 'email')"))
              end ;;
  if missing (email leadData) || missing (first_name leadData) then
    Eff.throw (Error (lit "Missing required fields: email and first_name"))
  else
    let row := mkRow (shown (email leadData)) (shown (first_name leadData))
                     (or_string (last_name leadData) [])
                     (or_string (phone leadData) [])
                     (or_string (source leadData) (lit "unknown"))
                     (or_value (tags leadData) (JArr []))
                     (or_value (custom_fields leadData) (JObj ∅)) in
    emit (Upsert row) ;;;
    contact <- match supabaseError (upsert a row) with
               | Some err => Eff.throw (Error (lit "Supabase error: " ++ message err))
               | None => Eff.ret (contact_id (upsert a row))
               end ;;
    Eff.try_catch
      (emit (Subscribe (shown (email leadData))
               (EmailParser.trim (shown (first_name leadData) ++ lit " "
                                  ++ or_string (last_name leadData) []))
               [or_string (source leadData) (lit "general")]) ;;;
       await (addSubscriber a))
      (fun mailrelayError =>
         emit (ConsoleError (lit "MailRelay subscription failed:") (message mailrelayError))) ;;;
    emit (Generate (lit "Create a personalized welcome email for "
                    ++ shown (first_name leadData) ++ lit " who signed up from "
                    ++ shown (source leadData)
                    ++ lit ". Keep it warm, professional, and include next steps.")) ;;;
    await (generateContent a) ;;;
    let funnelType := determineFunnelType (source leadData) in
    id <- match contact with
          | Some id => Eff.ret id
          | None => Eff.throw (TypeError (lit "Cannot read properties of null (reading 'id')"))
          end ;;
    emit (TriggerFunnel id funnelType) ;;;
    await (triggerFunnelSequence a) ;;;
    emit (LogActivity id (source leadData) funnelType) ;;;
    await (logActivity a) ;;;
    Eff.ret (mkSummary id funnelType).

(** [run]: in the [catch] block the argument of [logError] names
    [leadData], a [const] of the [try] block that is not in scope there,
    so evaluating it throws before [logError] or [sendAdminAlert] is
    called. *)
Definition run (a : apps) (data : option lead) : M summary :=
  Eff.try_catch (process a data)
    (fun error =>
       emit (ConsoleError (lit "Lead processing failed:") (message error)) ;;;
       Eff.throw (mkError (lit "ReferenceError") (lit "leadData is not defined"))).

(** The rows a run upserted. *)
Definition upserts (tr : list event) : list contact_row :=
  omap (fun e => match e with Upsert r => Some r | _ => None end) tr.

(** The alerts and error records a run sent. *)
Definition reports (tr : list event) : nat :=
  length (List.filter (fun e => match e with LogError | AdminAlert => true | _ => false end) tr).

End LeadWorkflow.

(** ** The funnel workflow: [run] and [executeStep] *)
Module FunnelWorkflow.
Import JS.
Local Open Scope eff_scope.

Record step : Type := mkStep { step_order : float; step_type : jsstring }.

Record journey : Type := mkJourney {
  journey_id : jsval;
  current_step : float;
  funnel_steps : list step
}.

(** What the workflow calls and does not define itself, each answering or
    throwing: the journeys query, [completeJourney], the handlers of the
    step types, the clock reading of [calculateNextStepTime], [logError]
    and [sendAdminAlert]. *)
Record apps : Type := mkApps {
  journeys : option (list journey);
  fetchError : option js_error;
  completeJourney : journey -> Eff.completion js_error unit;
  handler : jsstring -> journey -> step -> Eff.completion js_error unit;
  calculateNextStepTime : step -> Eff.completion js_error jsstring;
  logError : journey -> Eff.completion js_error unit;
  sendAdminAlert : Eff.completion js_error unit
}.

Inductive event : Type :=
| Completing (id : jsval)
| Running (step_type : jsstring) (id : jsval)
| Updated (id : jsval) (current_step : float) (next_step_at : jsstring)
| LoggingError (id : jsval) (err : js_error)
| AdminAlert (message : jsstring)
| ConsoleError (message : jsstring).

Definition M (A : Type) : Type := Eff.M (list event) js_error A.

Definition emit (e : event) : M unit := Eff.modify (fun tr => tr ++ [e]).

Definition await {A} (c : Eff.completion js_error A) : M A :=
  match c with
  | Eff.Returned a => Eff.ret a
  | Eff.Thrown err => Eff.throw err
  end.

(** The step types [executeStep] hands to a handler. *)
Definition handled : list jsstring := map lit ["email"; "sms"; "conditional"; "tag"]%string.

(** [executeStep]: the [switch] on [step.step_type]. *)
Definition executeStep (a : apps) (j : journey) (s : step) : M unit :=
  if bool_decide (step_type s ∈ handled) then
    emit (Running (step_type s) (journey_id j)) ;;;
    await (handler a (step_type s) j s)
  else if bool_decide (step_type s = lit "delay") then
    Eff.ret tt
  else
    Eff.throw (Error (lit "Unknown step type: " ++ step_type s)).

(** [journey.funnel_steps.find(step => step.step_order === journey.current_step + 1)] *)
Definition next_step (j : journey) : option step :=
  List.find (fun s => PrimFloat.eqb (step_order s) (PrimFloat.add (current_step j) 1))
            (funnel_steps j).

(** The [try] block of one round of the loop. *)
Definition advance (a : apps) (j : journey) : M unit :=
  match next_step j with
  | None =>
      emit (Completing (journey_id j)) ;;;
      await (completeJourney a j)
  | Some nextStep =>
      executeStep a j nextStep ;;;
      nextStepTime <- await (calculateNextStepTime a nextStep) ;;
      emit (Updated (journey_id j) (PrimFloat.add (current_step j) 1) nextStepTime)
  end.

(** One round: the two counters before and after. *)
Definition process_journey (a : apps) (counts : nat * nat) (j : journey) : M (nat * nat) :=
  let (processedCount, errorCount) := counts in
  Eff.try_catch
    (advance a j ;;;
     Eff.ret (S processedCount, errorCount))
    (fun stepError =>
       emit (ConsoleError (message stepError)) ;;;
       emit (LoggingError (journey_id j) stepError) ;;;
       await (logError a j) ;;;
       Eff.ret (processedCount, S errorCount)).

(** [for (const journey of journeys)] *)
Fixpoint process_all (a : apps) (counts : nat * nat) (js : list journey) : M (nat * nat) :=
  match js with
  | [] => Eff.ret counts
  | j :: js' =>
      counts' <- process_journey a counts j ;;
      process_all a counts' js'
  end.

Inductive report : Type :=
| NoJourneys
| Processed (processed errors : nat).

Definition run (a : apps) : M report :=
  Eff.try_catch
    (match fetchError a with
     | Some err => Eff.throw (Error (lit "Failed to fetch journeys: " ++ message err))
     | None =>
         match journeys a with
         | None => Eff.ret NoJourneys
         | Some [] => Eff.ret NoJourneys
         | Some (j :: js) =>
             counts <- process_all a (0, 0) (j :: js) ;;
             Eff.ret (Processed (fst counts) (snd counts))
         end
     end)
    (fun error =>
       emit (ConsoleError (message error)) ;;;
       emit (AdminAlert (message error)) ;;;
       await (sendAdminAlert a) ;;;
       Eff.throw error).



Definition handler_runs (tr : list event) : nat :=
  length (List.filter (fun e => match e with Running _ _ => true | _ => false end) tr).

End FunnelWorkflow.

(* ===================================================================== *)
(** * Part II: properties                                                 *)
(* ===================================================================== *)

(** ** The AI router *)
Section AIRouterFacts.
Import JS AIRouter.

(** The payload a helper posts for a given model. *)
Local Abbreviation post_for m language input :=
  (mkPost endpoint (mkPayload (lit m) (prompt_of (default (lit "en") language) input) false)).

(** [matches_here] holds exactly when the string starts with a run of code
    units that agrees with the literal up to ASCII case. *)
Lemma matches_here_spec (pat s : jsstring) :
  matches_here pat s = true <->
  exists kw rest, s = kw ++ rest /\ map canonicalize kw = map canonicalize pat.
Proof.
  revert s. induction pat as [|p pat IH]; intros s; simpl.
  - split; [intros _; exists [], s; auto|auto].
  - destruct s as [|c s].
    + split; [discriminate|].
      intros (kw & rest & Hs & Hkw). destruct kw; simpl in *; discriminate.
    + rewrite andb_true_iff, N.eqb_eq, IH. split.
      * intros (Hc & kw & rest & -> & Hkw).
        exists (c :: kw), rest. simpl. split; [reflexivity|]. now rewrite Hkw, Hc.
      * intros (kw & rest & Hs & Hkw). destruct kw as [|k kw]; simpl in *; [discriminate|].
        injection Hs as -> ->. injection Hkw as Hk Hkw.
        split; [auto|]. exists kw, rest. auto.
Qed.

(** [regex_match] is the search the regular expression performs: some
    alternative occurs somewhere in the string, up to ASCII case. *)
Lemma regex_match_spec (alternatives : list jsstring) (s : jsstring) :
  regex_match alternatives s = true <->
  exists before kw rest pat,
    s = before ++ kw ++ rest /\ In pat alternatives /\
    map canonicalize kw = map canonicalize pat.
Proof.
  induction s as [|c s IH]; simpl.
  - rewrite orb_false_r, existsb_exists. split.
    + intros (pat & Hin & Hm). apply matches_here_spec in Hm as (kw & rest & Hs & Hkw).
      exists [], kw, rest, pat. auto.
    + intros (before & kw & rest & pat & Hs & Hin & Hkw).
      exists pat. split; [assumption|]. apply matches_here_spec.
      symmetry in Hs. apply app_eq_nil in Hs as [-> Hs].
      exists kw, rest. auto.
  - rewrite orb_true_iff, existsb_exists, IH. split.
    + intros [(pat & Hin & Hm)|(before & kw & rest & pat & -> & Hin & Hkw)].
      * apply matches_here_spec in Hm as (kw & rest & Hs & Hkw).
        exists [], kw, rest, pat. auto.
      * exists (c :: before), kw, rest, pat. auto.
    + intros (before & kw & rest & pat & Hs & Hin & Hkw).
      destruct before as [|b before]; simpl in Hs.
      * left. exists pat. split; [assumption|]. apply matches_here_spec.
        exists kw, rest. auto.
      * injection Hs as -> ->. right. exists before, kw, rest, pat. auto.
Qed.

Example keyword_in_mixed_case :
  regex_match keywords (lit "Our new CAMPAIGN starts") = true.
Proof. reflexivity. Qed.

Example no_keyword :
  regex_match keywords (lit "translate hello to French") = false.
Proof. reflexivity. Qed.

(** What a run of [askQwen] does, by the outcome of its post. *)
Lemma askQwen_run (i u : jsstring) (l : option jsstring) (w : world) :
  askQwen i u l w =
  let sent' := sent w ++ [post_for "qwen:0.5b" l i] in
  match inference w (length (sent w)) with
  | AxiosResolved (DataWith r) =>
      (Eff.Returned (or_else r (lit "No response from Qwen.")),
       mkWorld (inference w) sent' (console w))
  | AxiosResolved DataNullish =>
      (Eff.Returned (lit "Qwen unavailable."),
       mkWorld (inference w) sent'
         (console w ++
          [(lit "Qwen failed:",
            lit "Cannot read properties of undefined (reading 'response')")]))
  | AxiosRejected err =>
      (Eff.Returned (lit "Qwen unavailable."),
       mkWorld (inference w) sent' (console w ++ [(lit "Qwen failed:", message err)]))
  end.
Proof.
  unfold askQwen, Eff.try_catch, Eff.bind, axios_post.
  destruct (inference w (length (sent w))) as [[|r]|err]; reflexivity.
Qed.

(** What a run of [askStrategist] does, by the outcome of its post. *)
Lemma askStrategist_run (i u : jsstring) (l : option jsstring) (w : world) :
  askStrategist i u l w =
  let sent' := sent w ++ [post_for "mixtral" l i] in
  match inference w (length (sent w)) with
  | AxiosResolved (DataWith r) =>
      (Eff.Returned (or_else r (lit "No response from strategist.")),
       mkWorld (inference w) sent' (console w))
  | AxiosResolved DataNullish =>
      (Eff.Returned (lit "Strategist unavailable."),
       mkWorld (inference w) sent'
         (console w ++
          [(lit "Strategist failed:",
            lit "Cannot read properties of undefined (reading 'response')")]))
  | AxiosRejected err =>
      (Eff.Returned (lit "Strategist unavailable."),
       mkWorld (inference w) sent' (console w ++ [(lit "Strategist failed:", message err)]))
  end.
Proof.
  unfold askStrategist, Eff.try_catch, Eff.bind, axios_post.
  destruct (inference w (length (sent w))) as [[|r]|err]; reflexivity.
Qed.

(** Either helper returns, whatever the endpoint does, after one post. *)
Lemma askQwen_returns (i u : jsstring) (l : option jsstring) (w : world) :
  exists reply w',
    askQwen i u l w = (Eff.Returned reply, w') /\
    sent w' = sent w ++ [post_for "qwen:0.5b" l i].
Proof.
  rewrite askQwen_run.
  destruct (inference w (length (sent w))) as [[|r]|err]; simpl; eauto.
Qed.

Lemma askStrategist_returns (i u : jsstring) (l : option jsstring) (w : world) :
  exists reply w',
    askStrategist i u l w = (Eff.Returned reply, w') /\
    sent w' = sent w ++ [post_for "mixtral" l i].
Proof.
  rewrite askStrategist_run.
  destruct (inference w (length (sent w))) as [[|r]|err]; simpl; eauto.
Qed.

(** The two branches of the router. *)
Lemma route_fast (req : AIRequest) (w : world) :
  (length (input req) <? 280) && negb (regex_match keywords (input req)) = true ->
  routeAIRequest req w =
  (quickReply <- askQwen (input req) (userId req) (language req) ;;
   Eff.ret (lit "[Qwen] " ++ quickReply))%eff w.
Proof. intros H. unfold routeAIRequest. now rewrite H. Qed.

Lemma route_deep (req : AIRequest) (w : world) :
  (length (input req) <? 280) && negb (regex_match keywords (input req)) = false ->
  routeAIRequest req w =
  (strategicResponse <- askStrategist (input req) (userId req) (language req) ;;
   Eff.ret (lit "[Strategist] " ++ strategicResponse))%eff w.
Proof. intros H. unfold routeAIRequest. now rewrite H. Qed.

(** C1. A request whose input is shorter than 280 code units and does not
    match the keyword expression is answered by the fast backend: the run
    of [routeAIRequest] is one run of [askQwen], which sends exactly one
    post, for model qwen:0.5b and none for mixtral, and the result is
    the helper's reply after the tag "[Qwen] ". *)
Theorem route_short_plain_input_uses_qwen (req : AIRequest) (w : world) :
  length (input req) < 280 ->
  regex_match keywords (input req) = false ->
  exists quickReply w',
    askQwen (input req) (userId req) (language req) w = (Eff.Returned quickReply, w') /\
    routeAIRequest req w = (Eff.Returned (lit "[Qwen] " ++ quickReply), w') /\
    sent w' = sent w ++ [post_for "qwen:0.5b" (language req) (input req)] /\
    posts_to (lit "qwen:0.5b") (drop (length (sent w)) (sent w')) = 1 /\
    posts_to (lit "mixtral") (drop (length (sent w)) (sent w')) = 0.
Proof.
  intros Hlen Hre.
  destruct (askQwen_returns (input req) (userId req) (language req) w)
    as (reply & w' & Hrun & Hsent).
  exists reply, w'. split; [assumption|]. split.
  - rewrite route_fast.
    + unfold Eff.bind. now rewrite Hrun.
    + apply Nat.ltb_lt in Hlen. now rewrite Hlen, Hre.
  - split; [assumption|]. rewrite Hsent, drop_app_length. split; reflexivity.
Qed.

Lemma route_short_plain_input_uses_qwen_witness :
  let req := mkRequest (lit "u1") (lit "translate hello to French") None in
  let w := mkWorld (fun _ => AxiosResolved (DataWith (Some (lit "bonjour")))) [] [] in
  length (input req) < 280 /\
  regex_match keywords (input req) = false /\
  exists quickReply w',
    askQwen (input req) (userId req) (language req) w = (Eff.Returned quickReply, w') /\
    routeAIRequest req w = (Eff.Returned (lit "[Qwen] " ++ quickReply), w') /\
    sent w' = sent w ++ [post_for "qwen:0.5b" (language req) (input req)] /\
    posts_to (lit "qwen:0.5b") (drop (length (sent w)) (sent w')) = 1 /\
    posts_to (lit "mixtral") (drop (length (sent w)) (sent w')) = 0.
Proof.
  intros req w.
  assert (Hlen : length (input req) < 280) by (vm_compute; lia).
  assert (Hre : regex_match keywords (input req) = false) by reflexivity.
  split; [exact Hlen|]. split; [exact Hre|].
  exact (route_short_plain_input_uses_qwen req w Hlen Hre).
Defined.

(** C2. A request whose input has 280 code units or more, or matches the
    keyword expression, is answered by the deep backend: the run of
    [routeAIRequest] is one run of [askStrategist], which sends exactly one
    post, for model mixtral and none for qwen:0.5b, and the result is the
    helper's reply after the tag "[Strategist] ". *)
Theorem route_long_or_keyword_input_uses_strategist (req : AIRequest) (w : world) :
  280 <= length (input req) \/ regex_match keywords (input req) = true ->
  exists strategicResponse w',
    askStrategist (input req) (userId req) (language req) w
      = (Eff.Returned strategicResponse, w') /\
    routeAIRequest req w = (Eff.Returned (lit "[Strategist] " ++ strategicResponse), w') /\
    sent w' = sent w ++ [post_for "mixtral" (language req) (input req)] /\
    posts_to (lit "mixtral") (drop (length (sent w)) (sent w')) = 1 /\
    posts_to (lit "qwen:0.5b") (drop (length (sent w)) (sent w')) = 0.
Proof.
  intros Hcond.
  destruct (askStrategist_returns (input req) (userId req) (language req) w)
    as (reply & w' & Hrun & Hsent).
  exists reply, w'. split; [assumption|]. split.
  - rewrite route_deep.
    + unfold Eff.bind. now rewrite Hrun.
    + apply andb_false_iff. destruct Hcond as [Hlen|Hre].
      * left. apply Nat.ltb_ge. exact Hlen.
      * right. now rewrite Hre.
  - split; [assumption|]. rewrite Hsent, drop_app_length. split; reflexivity.
Qed.

Lemma route_long_or_keyword_input_uses_strategist_witness :
  let req := mkRequest (lit "u1") (lit "Plan my week") (Some (lit "fr")) in
  let w := mkWorld (fun _ => AxiosRejected (Error (lit "connect ECONNREFUSED"))) [] [] in
  (280 <= length (input req) \/ regex_match keywords (input req) = true) /\
  exists strategicResponse w',
    askStrategist (input req) (userId req) (language req) w
      = (Eff.Returned strategicResponse, w') /\
    routeAIRequest req w = (Eff.Returned (lit "[Strategist] " ++ strategicResponse), w') /\
    sent w' = sent w ++ [post_for "mixtral" (language req) (input req)] /\
    posts_to (lit "mixtral") (drop (length (sent w)) (sent w')) = 1 /\
    posts_to (lit "qwen:0.5b") (drop (length (sent w)) (sent w')) = 0.
Proof.
  intros req w.
  assert (Hcond : 280 <= length (input req) \/ regex_match keywords (input req) = true)
    by (right; reflexivity).
  split; [exact Hcond|].
  exact (route_long_or_keyword_input_uses_strategist req w Hcond).
Defined.

(** C6, as the code has it. Each helper sends one post to the inference
    endpoint with the body {model, prompt, stream: false}, the prompt
    being "Respond in <language>. <input>" and the language 'en' when none
    is given. It returns the reply's response field when that is a
    non-empty string; the fixed text "No response from ..." when the
    reply has no response field or an empty one; and the fixed text
    "... unavailable." when the post is rejected or the reply carries no
    data. *)
Theorem backend_helpers_post_and_answer (i u : jsstring) (l : option jsstring) (w : world) :
  let answer no_response unavailable :=
    match inference w (length (sent w)) with
    | AxiosResolved (DataWith (Some (c :: r))) => c :: r
    | AxiosResolved (DataWith (Some [])) => no_response
    | AxiosResolved (DataWith None) => no_response
    | AxiosResolved DataNullish => unavailable
    | AxiosRejected _ => unavailable
    end in
  let payload m :=
    mkPayload (lit m) (lit "Respond in " ++ default (lit "en") l ++ lit ". " ++ i) false in
  (exists w',
     askQwen i u l w
       = (Eff.Returned (answer (lit "No response from Qwen.") (lit "Qwen unavailable.")), w') /\
     sent w' = sent w ++ [mkPost (lit "http://localhost:11434/api/generate")
                                 (payload "qwen:0.5b")]) /\
  (exists w',
     askStrategist i u l w
       = (Eff.Returned (answer (lit "No response from strategist.")
                               (lit "Strategist unavailable.")), w') /\
     sent w' = sent w ++ [mkPost (lit "http://localhost:11434/api/generate")
                                 (payload "mixtral")]).
Proof.
  intros answer payload. subst answer payload. cbv beta.
  rewrite askQwen_run, askStrategist_run.
  destruct (inference w (length (sent w))) as [[|[[|c r]|]]|err]; simpl;
    split; eexists; split; reflexivity.
Qed.

(** C6 as stated fails: when the endpoint answers with an empty response
    field, [askQwen] does not return that field but the text
    "No response from Qwen.", although the call did not fail. *)
Lemma askQwen_empty_response_is_replaced :
  let response_field : jsstring := [] in
  let w := mkWorld (fun _ => AxiosResolved (DataWith (Some response_field))) [] [] in
  fst (askQwen (lit "hi") (lit "u1") None w) = Eff.Returned (lit "No response from Qwen.") /\
  fst (askQwen (lit "hi") (lit "u1") None w) <> Eff.Returned response_field.
Proof.
  split; [reflexivity|]. vm_compute. discriminate.
Qed.

(** C9. [routeAIRequest] never rejects: whatever the endpoint does, also
    when it rejects the post or sends no data, the run returns a string
    after exactly one post, and either that post was for qwen:0.5b and the
    string starts with "[Qwen] ", or it was for mixtral and the string
    starts with "[Strategist] ". A rejected post gives the helper's fixed
    text after the tag. *)
Theorem route_never_rejects (req : AIRequest) (w : world) :
  exists reply answer call w',
    routeAIRequest req w = (Eff.Returned reply, w') /\
    sent w' = sent w ++ [call] /\
    ((model (body call) = lit "qwen:0.5b" /\ reply = lit "[Qwen] " ++ answer) \/
     (model (body call) = lit "mixtral" /\ reply = lit "[Strategist] " ++ answer)) /\
    match inference w (length (sent w)) with
    | AxiosRejected _ =>
        reply = lit "[Qwen] Qwen unavailable." \/
        reply = lit "[Strategist] Strategist unavailable."
    | AxiosResolved _ => True
    end.
Proof.
  destruct ((length (input req) <? 280) && negb (regex_match keywords (input req)))
    eqn:Hcond.
  - rewrite (route_fast req w Hcond). unfold Eff.bind. rewrite askQwen_run.
    destruct (inference w (length (sent w))) as [[|r]|err]; simpl;
      do 4 eexists; (split; [reflexivity|]); (split; [reflexivity|]);
      (split; [left; split; reflexivity|]); auto.
  - rewrite (route_deep req w Hcond). unfold Eff.bind. rewrite askStrategist_run.
    destruct (inference w (length (sent w))) as [[|r]|err]; simpl;
      do 4 eexists; (split; [reflexivity|]); (split; [reflexivity|]);
      (split; [right; split; reflexivity|]); auto.
Qed.

Example route_survives_a_refused_connection :
  fst (routeAIRequest (mkRequest (lit "u1") (lit "hello") None)
         (mkWorld (fun _ => AxiosRejected (Error (lit "connect ECONNREFUSED"))) [] []))
  = Eff.Returned (lit "[Qwen] Qwen unavailable.").
Proof. reflexivity. Qed.

End AIRouterFacts.

(** ** The dashboard: the retrying fetch *)
Section WpFetchFacts.
Import JS Dashboard.

Variable responses : nat -> fetch_result.
Variable url method : jsstring.
Variable body : option jsval.
Variable retries : nat.

Local Abbreviation attempt_at := (attempt responses url method body retries).
Local Abbreviation loop := (wpFetch_loop responses url method body retries).

(** The rounds from round [i] on, as [wpFetch] runs them. *)
Local Abbreviation from i := (loop (S retries - i) i).

(** The events every attempt begins with. *)
Local Abbreviation started tr := (tr ++ [SetTimeout 10000; Fetch url method body]).

Ltac run_attempt :=
  unfold attempt, Eff.try_catch, Eff.bind, emit, Eff.modify, await_fetch, await_json,
    Eff.throw, Eff.ret; cbn beta iota.

Ltac tidy_trace := repeat (rewrite <- app_assoc; cbn [app]).

Lemma loop_unfold (i : nat) (tr : list event) :
  i <= retries ->
  from i tr =
  match attempt_at i tr with
  | (Eff.Returned (Done v), tr') => (Eff.Returned v, tr')
  | (Eff.Returned Continue, tr') => from (S i) tr'
  | (Eff.Thrown err, tr') => (Eff.Thrown err, tr')
  end.
Proof.
  intros Hi. replace (S retries - i) with (S (retries - i)) by lia.
  cbn [wpFetch_loop]. unfold Eff.bind at 1.
  destruct (attempt_at i tr) as [[[v|]|err] tr']; try reflexivity.
Qed.

(** A fetch that rejects: the [catch] block decides. *)
Lemma attempt_rejected (i : nat) (tr : list event) (err : js_error) :
  responses i = FetchRejected err ->
  attempt_at i tr =
  if i =? retries then
    (Eff.Thrown err, started tr ++ [ConsoleError (retries + 1) err])
  else if bool_decide (name err = lit "AbortError") then
    (Eff.Thrown (Error (lit "Request timeout")), started tr)
  else (Eff.Returned Continue, started tr).
Proof.
  intros Hr. run_attempt. rewrite Hr. cbn beta iota.
  destruct (i =? retries); [|destruct (bool_decide _)]; cbn; tidy_trace; reflexivity.
Qed.

(** A response with a status of 500 or more while retries remain. *)
Lemma attempt_server_error (i : nat) (tr : list event) (r : response) :
  responses i = FetchResolved r ->
  (500 <= status r)%N -> i < retries ->
  attempt_at i tr =
  (Eff.Returned Continue, started tr ++ [ClearTimeout; Sleep (2 ^ N.of_nat i * 1000)%N]).
Proof.
  intros Hr Hs Hi. run_attempt. rewrite Hr. cbn beta iota.
  assert (Hok : ok r = false).
  { unfold ok. apply andb_false_iff. right. apply N.leb_gt. lia. }
  apply N.leb_le in Hs. apply Nat.ltb_lt in Hi.
  rewrite Hok, Hs, Hi. cbn. tidy_trace. reflexivity.
Qed.

(** A response that is not ok on the last attempt. *)
Lemma attempt_last_error_response (tr : list event) (r : response) :
  responses retries = FetchResolved r ->
  ok r = false ->
  let err := Error (lit "HTTP " ++ N_to_jsstring (status r) ++ lit ": " ++ statusText r) in
  attempt_at retries tr =
  (Eff.Thrown err, started tr ++ [ClearTimeout; ConsoleError (retries + 1) err]).
Proof.
  intros Hr Hok err. run_attempt. rewrite Hr. cbn beta iota.
  rewrite Hok, Nat.ltb_irrefl, andb_false_r, Nat.eqb_refl. cbn. tidy_trace. reflexivity.
Qed.

(** An ok response with a JSON body that parses. *)
Lemma attempt_success (i : nat) (tr : list event) (r : response) (v : jsval) :
  responses i = FetchResolved r ->
  ok r = true -> is_json r = true -> json r = Eff.Returned v ->
  attempt_at i tr = (Eff.Returned (Done v), started tr ++ [ClearTimeout]).
Proof.
  intros Hr Hok Hct Hj. run_attempt. rewrite Hr. cbn beta iota.
  rewrite Hok, Hct, Hj. cbn. tidy_trace. reflexivity.
Qed.

Lemma attempts_made_app (a b : list event) :
  attempts_made (a ++ b) = attempts_made a + attempts_made b.
Proof. unfold attempts_made. now rewrite List.filter_app, length_app. Qed.

(** Every attempt arms the 10 second timer, fetches once, and then logs
    nothing that is another fetch. *)
Lemma attempt_trace (i : nat) (tr : list event) :
  exists rest,
    snd (attempt_at i tr) = started tr ++ rest /\ attempts_made rest = 0.
Proof.
  run_attempt.
  destruct (responses i) as [r|err]; cbn beta iota.
  - destruct (ok r); cbn [negb].
    + destruct (is_json r); cbn [negb].
      * destruct (json r) as [v|err]; cbn beta iota.
        -- exists [ClearTimeout]. tidy_trace. auto.
        -- destruct (i =? retries); [|destruct (bool_decide _)]; cbn;
             eexists; tidy_trace; split; reflexivity.
      * destruct (i =? retries); [|destruct (bool_decide _)]; cbn;
          eexists; tidy_trace; split; reflexivity.
    + destruct ((500 <=? status r)%N && (i <? retries)); cbn.
      * eexists; tidy_trace; split; reflexivity.
      * destruct (i =? retries); [|destruct (bool_decide _)]; cbn;
          eexists; tidy_trace; split; reflexivity.
  - destruct (i =? retries); [|destruct (bool_decide _)]; cbn;
      eexists; tidy_trace; split; reflexivity.
Qed.

(** The loop fetches at most once per round. *)
Lemma loop_attempts_bounded (remaining i : nat) (tr : list event) :
  attempts_made (snd (loop remaining i tr)) <= attempts_made tr + remaining.
Proof.
  revert i tr. induction remaining as [|k IH]; intros i tr; cbn [wpFetch_loop].
  - unfold Eff.ret. cbn [snd]. lia.
  - unfold Eff.bind at 1.
    destruct (attempt_trace i tr) as (rest & Htr & Hrest).
    assert (Hone : attempts_made [SetTimeout 10000; Fetch url method body] = 1)
      by reflexivity.
    destruct (attempt_at i tr) as [[[v|]|err] tr']; cbn [snd] in *; subst tr'.
    + unfold Eff.ret. cbn [snd]. rewrite !attempts_made_app, Hrest, Hone. lia.
    + specialize (IH (S i) (started tr ++ rest)).
      rewrite !attempts_made_app, Hrest, Hone in IH. lia.
    + rewrite !attempts_made_app, Hrest, Hone. lia.
Qed.

End WpFetchFacts.

Section WpFetchPolicy.
Import JS Dashboard.

(** With the configuration present, [wpFetch] is the loop from round 0;
    without it, it throws before any fetch. *)
Lemma wpFetch_configured (cfg : wordpress_config) (responses : nat -> fetch_result)
    (endpoint method : jsstring) (body : option jsval) (retries : nat) (tr : list event) :
  wpFetch cfg responses endpoint method body retries tr =
  if is_empty (wp_url cfg) || is_empty (wp_apiKey cfg) then
    (Eff.Thrown (Error (lit "WordPress configuration missing")), tr)
  else
    wpFetch_loop responses (wp_url cfg ++ lit "/wp-json/enterprise-crm/v1" ++ endpoint)
      method body retries (S retries) 0 tr.
Proof. unfold wpFetch. destruct (is_empty (wp_url cfg) || is_empty (wp_apiKey cfg)); reflexivity. Qed.

Lemma wpFetch_attempts_bounded (cfg : wordpress_config) (responses : nat -> fetch_result)
    (endpoint method : jsstring) (body : option jsval) (retries : nat) :
  attempts_made (snd (wpFetch cfg responses endpoint method body retries [])) <= retries + 1.
Proof.
  rewrite wpFetch_configured.
  destruct (is_empty (wp_url cfg) || is_empty (wp_apiKey cfg)).
  - cbn. lia.
  - pose proof (loop_attempts_bounded responses
                  (wp_url cfg ++ lit "/wp-json/enterprise-crm/v1" ++ endpoint)
                  method body retries (S retries) 0 []) as H.
    change (attempts_made []) with 0 in H. lia.
Qed.

(** C7, as the code has it. [wpFetch] makes at most [retries + 1]
    attempts, 4 with the default of 3 retries, and every attempt arms a
    10 second abort timer before it fetches. On attempt [i] (counted from
    0): a response with status 500 or more while retries remain is
    followed by a wait of 2^i seconds and the next attempt; a fetch that
    rejects for another reason than the timer while retries remain is
    followed by the next attempt at once, without a wait; a fetch aborted
    by the timer while retries remain throws "Request timeout" with no
    further attempt; on the last attempt a rejected fetch and a response
    that is not ok are thrown to the caller; an ok JSON response is
    returned with no further attempt. Error responses below 500 before the
    last attempt are left open here. *)
Theorem wpFetch_retry_policy (cfg : wordpress_config) (responses : nat -> fetch_result)
    (endpoint method : jsstring) (body : option jsval) (retries i : nat)
    (tr : list event) :
  i <= retries ->
  let url := wp_url cfg ++ lit "/wp-json/enterprise-crm/v1" ++ endpoint in
  let from k := wpFetch_loop responses url method body retries (S retries - k) k in
  let started := tr ++ [SetTimeout 10000; Fetch url method body] in
  attempts_made (snd (wpFetch cfg responses endpoint method body retries [])) <= retries + 1 /\
  default_retries + 1 = 4 /\
  (exists rest,
     snd (attempt responses url method body retries i tr) = started ++ rest /\
     attempts_made rest = 0) /\
  (forall r, responses i = FetchResolved r -> (500 <= status r)%N -> i < retries ->
     from i tr = from (S i) (started ++ [ClearTimeout; Sleep (2 ^ N.of_nat i * 1000)%N])) /\
  (forall err, responses i = FetchRejected err -> name err <> lit "AbortError" ->
     i < retries ->
     from i tr = from (S i) started) /\
  (forall err, responses i = FetchRejected err -> name err = lit "AbortError" ->
     i < retries ->
     from i tr = (Eff.Thrown (Error (lit "Request timeout")), started)) /\
  (forall err, responses i = FetchRejected err -> i = retries ->
     from i tr = (Eff.Thrown err, started ++ [ConsoleError (retries + 1) err])) /\
  (forall r, responses i = FetchResolved r -> ok r = false -> i = retries ->
     let err := Error (lit "HTTP " ++ N_to_jsstring (status r) ++ lit ": " ++ statusText r) in
     from i tr = (Eff.Thrown err, started ++ [ClearTimeout; ConsoleError (retries + 1) err])) /\
  (forall r v, responses i = FetchResolved r -> ok r = true -> is_json r = true ->
     json r = Eff.Returned v ->
     from i tr = (Eff.Returned v, started ++ [ClearTimeout])).
Proof.
  intros Hi url from started. subst from started. cbv beta.
  split; [apply wpFetch_attempts_bounded|].
  split; [reflexivity|].
  split; [apply attempt_trace|].
  split; [|split; [|split; [|split; [|split]]]].
  - intros r Hr Hs Hlt. rewrite loop_unfold by exact Hi.
    now rewrite (attempt_server_error _ _ _ _ _ _ _ r Hr Hs Hlt).
  - intros err Hr Hname Hlt. rewrite loop_unfold by exact Hi.
    rewrite (attempt_rejected _ _ _ _ _ _ _ err Hr).
    apply Nat.lt_neq, Nat.eqb_neq in Hlt. rewrite Hlt.
    now rewrite bool_decide_eq_false_2.
  - intros err Hr Hname Hlt. rewrite loop_unfold by exact Hi.
    rewrite (attempt_rejected _ _ _ _ _ _ _ err Hr).
    apply Nat.lt_neq, Nat.eqb_neq in Hlt. rewrite Hlt.
    now rewrite bool_decide_eq_true_2.
  - intros err Hr ->. rewrite loop_unfold by exact Hi.
    rewrite (attempt_rejected _ _ _ _ _ _ _ err Hr).
    now rewrite Nat.eqb_refl.
  - intros r Hr Hok ->. cbv zeta. rewrite loop_unfold by exact Hi.
    now rewrite (attempt_last_error_response _ _ _ _ _ _ r Hr Hok).
  - intros r v Hr Hok Hct Hj. rewrite loop_unfold by exact Hi.
    now rewrite (attempt_success _ _ _ _ _ _ _ r v Hr Hok Hct Hj).
Qed.

(** A site, a failing server and a healthy one, for the runs below. *)
Local Abbreviation site := (mkConfig (lit "https://cms.example") (lit "k3y")).
Local Abbreviation campaigns_url := (lit "https://cms.example/wp-json/enterprise-crm/v1/campaigns").
Local Abbreviation unavailable :=
  (FetchResolved (mkResponse 503 (lit "Service Unavailable") None
                             (Eff.Thrown (Error (lit "Unexpected end of JSON input"))))).
Local Abbreviation healthy :=
  (FetchResolved (mkResponse 200 (lit "OK") (Some (lit "application/json; charset=UTF-8"))
                             (Eff.Returned (JArr [])))).

Lemma wpFetch_retry_policy_witness :
  let responses := fun _ : nat => unavailable in
  1 <= 3 /\
  wpFetch_loop responses campaigns_url (lit "GET") None 3 3 1 [] =
  wpFetch_loop responses campaigns_url (lit "GET") None 3 2 2
    [SetTimeout 10000; Fetch campaigns_url (lit "GET") None; ClearTimeout; Sleep 2000].
Proof.
  intros responses.
  assert (Hi : 1 <= 3) by lia.
  split; [exact Hi|].
  destruct (wpFetch_retry_policy site responses (lit "/campaigns") (lit "GET") None 3 1 [] Hi)
    as (_ & _ & _ & Hserver & _).
  refine (Hserver _ eq_refl _ _); [vm_compute; discriminate | lia].
Defined.

(** A server that keeps answering 503: four attempts, with waits of 1, 2
    and 4 seconds between them, then the error. *)
Example wpFetch_backs_off_on_503 :
  wpFetch site (fun _ => unavailable) (lit "/campaigns") (lit "GET") None default_retries [] =
  let fetch := Fetch campaigns_url (lit "GET") None in
  let err := Error (lit "HTTP 503: Service Unavailable") in
  (Eff.Thrown err,
   [SetTimeout 10000; fetch; ClearTimeout; Sleep 1000;
    SetTimeout 10000; fetch; ClearTimeout; Sleep 2000;
    SetTimeout 10000; fetch; ClearTimeout; Sleep 4000;
    SetTimeout 10000; fetch; ClearTimeout; ConsoleError 4 err]).
Proof. vm_compute. reflexivity. Qed.

(** C7 as stated fails: no response of this server has a status of 500 or
    more, yet the request is sent twice. The first fetch fails on the
    network, with no HTTP status at all; it is tried again at once, and
    the second attempt's result is returned. *)
Lemma wpFetch_retries_after_network_failure :
  let responses := fun i : nat =>
    match i with
    | 0 => FetchRejected (TypeError (lit "Failed to fetch"))
    | _ => healthy
    end in
  let fetch := Fetch campaigns_url (lit "GET") None in
  (forall i r, responses i = FetchResolved r -> (status r < 500)%N) /\
  wpFetch site responses (lit "/campaigns") (lit "GET") None default_retries [] =
  (Eff.Returned (JArr []),
   [SetTimeout 10000; fetch; SetTimeout 10000; fetch; ClearTimeout]) /\
  attempts_made
    (snd (wpFetch site responses (lit "/campaigns") (lit "GET") None default_retries [])) = 2.
Proof.
  split; [|split; vm_compute; reflexivity].
  intros [|i] r Hr; [discriminate Hr|]. injection Hr as <-. reflexivity.
Qed.

(** The same happens to an error response below 500 before the last
    attempt: the error built for it is caught by the loop's own [catch]
    and the request is sent again. *)
Example wpFetch_fetches_again_after_404 :
  let responses := fun i : nat =>
    match i with
    | 0 => FetchResolved (mkResponse 404 (lit "Not Found") None (Eff.Returned JNull))
    | _ => healthy
    end in
  let fetch := Fetch campaigns_url (lit "GET") None in
  wpFetch site responses (lit "/campaigns") (lit "GET") None default_retries [] =
  (Eff.Returned (JArr []),
   [SetTimeout 10000; fetch; ClearTimeout; SetTimeout 10000; fetch; ClearTimeout]).
Proof. vm_compute. reflexivity. Qed.

(** A timeout before the last attempt ends the call. *)
Example wpFetch_gives_up_on_timeout :
  let responses := fun _ : nat =>
    FetchRejected (mkError (lit "AbortError") (lit "The operation was aborted.")) in
  wpFetch site responses (lit "/campaigns") (lit "GET") None default_retries [] =
  (Eff.Thrown (Error (lit "Request timeout")),
   [SetTimeout 10000; Fetch campaigns_url (lit "GET") None]).
Proof. vm_compute. reflexivity. Qed.

End WpFetchPolicy.

(** ** The dashboard: the data load and the realtime reducer *)
Section DashboardFacts.
Import JS Dashboard.

(** A configured [wpFetch] whose first response is an ok JSON response
    returns its body. *)
Lemma wpFetch_answers_at_once (cfg : wordpress_config) (responses : nat -> fetch_result)
    (endpoint method : jsstring) (body : option jsval) (retries : nat)
    (r : response) (v : jsval) :
  is_empty (wp_url cfg) = false -> is_empty (wp_apiKey cfg) = false ->
  responses 0 = FetchResolved r -> ok r = true -> is_json r = true ->
  json r = Eff.Returned v ->
  fst (wpFetch cfg responses endpoint method body retries []) = Eff.Returned v.
Proof.
  intros Hurl Hkey Hr Hok Hct Hj.
  rewrite wpFetch_configured, Hurl, Hkey. cbn [orb].
  change (S retries) with (S retries - 0).
  rewrite loop_unfold by lia.
  now rewrite (attempt_success _ _ _ _ _ _ _ r v Hr Hok Hct Hj).
Qed.

(** When every fetch rejects, the loop ends by throwing. *)
Lemma loop_all_rejected (responses : nat -> fetch_result) (url method : jsstring)
    (body : option jsval) (retries remaining i : nat) (tr : list event) :
  (forall k, exists err, responses k = FetchRejected err) ->
  i + remaining = S retries -> i <= retries ->
  exists err, fst (wpFetch_loop responses url method body retries remaining i tr)
              = Eff.Thrown err.
Proof.
  intros Hall. revert i tr. induction remaining as [|rem IH]; intros i tr Hsum Hi.
  - lia.
  - replace (S rem) with (S retries - i) by lia.
    rewrite loop_unfold by lia.
    destruct (Hall i) as (err & Hr).
    rewrite (attempt_rejected _ _ _ _ _ _ _ err Hr).
    destruct (i =? retries) eqn:Hlast; [eauto|].
    destruct (bool_decide (name err = lit "AbortError")); [eauto|].
    apply Nat.eqb_neq in Hlast.
    replace (S retries - S i) with rem by lia.
    apply IH; lia.
Qed.

Lemma wpFetch_all_rejected (cfg : wordpress_config) (responses : nat -> fetch_result)
    (endpoint method : jsstring) (body : option jsval) (retries : nat) :
  (forall k, exists err, responses k = FetchRejected err) ->
  exists err, fst (wpFetch cfg responses endpoint method body retries []) = Eff.Thrown err.
Proof.
  intros Hall. rewrite wpFetch_configured.
  destruct (is_empty (wp_url cfg) || is_empty (wp_apiKey cfg)); [eauto|].
  apply loop_all_rejected; [exact Hall|reflexivity|lia].
Qed.

(** C8. Of the three WordPress fetches (campaigns, funnels, analytics), a
    rejected one is replaced by its empty default, the empty list for
    campaigns and funnels and the empty object for analytics, and a
    fulfilled one keeps its value; no rejection among them fails the
    load. A fetch whose first response is an ok JSON response is
    fulfilled with that body, and a fetch whose every attempt is rejected
    is rejected. When the contacts query succeeds the state takes, for
    each resource, the value [wpFetch] returned or the default when it
    threw, with no error, not loading and a retry count of 0, whatever
    the three fetches did. Only a failed contacts query makes the load
    fail. *)
Theorem wordpress_failures_default_to_empty (cfg : wordpress_config)
    (network : jsstring -> nat -> fetch_result) (supabase : option query_result)
    (isRefresh : bool) (st : state) (ui : ui_state) :
  let kept (d : jsval) (c : Eff.completion js_error jsval) :=
    match c with Eff.Returned v => v | Eff.Thrown _ => d end in
  let fetched e := fst (wpFetch cfg (network e) e (lit "GET") None 3 []) in
  let next := fst (fetchData cfg network supabase isRefresh (st, ui)) in
  (forall e r v,
     is_empty (wp_url cfg) = false -> is_empty (wp_apiKey cfg) = false ->
     network e 0 = FetchResolved r -> ok r = true -> is_json r = true ->
     json r = Eff.Returned v ->
     fetched e = Eff.Returned v) /\
  (forall e,
     (forall k, exists err, network e k = FetchRejected err) ->
     exists err, fetched e = Eff.Thrown err) /\
  (forall c0 c1 c2,
     settled_to_data (settle c0) (settle c1) (settle c2)
     = mkWpData (kept (JArr []) c0) (kept (JArr []) c1) (kept (JObj ∅) c2)) /\
  match supabase_promise supabase with
  | Eff.Returned cs =>
      contacts next = cs /\
      campaigns next = kept (JArr []) (fetched (lit "/campaigns")) /\
      funnels next = kept (JArr []) (fetched (lit "/funnels")) /\
      analytics next
        = kept (JObj ∅) (fetched (lit "/analytics?range=" ++ selectedTimeRange ui)) /\
      error next = None /\ loading next = false /\ retryCount next = 0
  | Eff.Thrown err =>
      contacts next = contacts st /\ campaigns next = campaigns st /\
      funnels next = funnels st /\ analytics next = analytics st /\
      error next <> None /\ loading next = false /\ retryCount next = retryCount st + 1
  end.
Proof.
  intros kept fetched next. subst kept fetched next. cbv beta.
  split; [|split; [|split]].
  - intros e r v Hurl Hkey Hr Hok Hct Hj.
    exact (wpFetch_answers_at_once cfg (network e) e (lit "GET") None 3 r v
             Hurl Hkey Hr Hok Hct Hj).
  - intros e Hall. exact (wpFetch_all_rejected cfg (network e) e (lit "GET") None 3 Hall).
  - intros [v0|e0] [v1|e1] [v2|e2]; reflexivity.
  - unfold fetchData, default_retries.
    destruct (supabase_promise supabase) as [cs|err];
      cbn [fst contacts campaigns funnels analytics loading error retryCount
           wp_campaigns wp_funnels wp_analytics settled_to_data].
    + repeat match goal with
             | |- context [wpFetch ?a ?b ?c ?d ?e ?f ?g] =>
                 destruct (wpFetch a b c d e f g) as [[?|?] ?]
             end; cbn; repeat split; reflexivity.
    + repeat split; discriminate.
Qed.

Lemma wordpress_failures_default_to_empty_witness :
  let cfg := mkConfig (lit "https://cms.example") (lit "k3y") in
  let answer (e : jsstring) :=
    mkResponse 200 (lit "OK") (Some (lit "application/json")) (Eff.Returned (JArr [JStr e])) in
  let network := fun (e : jsstring) (_ : nat) =>
    if bool_decide (e = lit "/funnels")
    then FetchRejected (TypeError (lit "Failed to fetch"))
    else FetchResolved (answer e) in
  let before := mkState [] JUndefined JUndefined JUndefined true None 2 in
  let next := fst (fetchData cfg network (Some (mkQuery None None)) false
                     (before, mkUI false (lit "30d"))) in
  campaigns next = JArr [JStr (lit "/campaigns")] /\
  funnels next = JArr [] /\
  analytics next = JArr [JStr (lit "/analytics?range=30d")] /\
  error next = None /\ retryCount next = 0.
Proof.
  intros cfg answer network before next.
  destruct (wordpress_failures_default_to_empty cfg network (Some (mkQuery None None)) false
              before (mkUI false (lit "30d")))
    as (Hkept & Hdropped & _ & Hload).
  change (supabase_promise (Some (mkQuery None None))) with
    (@Eff.Returned js_error (list row) []) in Hload.
  cbv iota beta in Hload. fold next in Hload.
  destruct Hload as (_ & Hc & Hf & Ha & He & _ & Hn).
  rewrite (Hkept (lit "/campaigns") (answer (lit "/campaigns")) (JArr [JStr (lit "/campaigns")])
             eq_refl eq_refl eq_refl eq_refl eq_refl eq_refl) in Hc.
  rewrite (Hkept (lit "/analytics?range=" ++ selectedTimeRange (mkUI false (lit "30d")))
             (answer (lit "/analytics?range=30d"))
             (JArr [JStr (lit "/analytics?range=30d")])
             eq_refl eq_refl eq_refl eq_refl eq_refl eq_refl) in Ha.
  destruct (Hdropped (lit "/funnels")) as (err & Herr).
  { intros k. exists (TypeError (lit "Failed to fetch")). reflexivity. }
  rewrite Herr in Hf.
  split; [exact Hc|]. split; [exact Hf|]. split; [exact Ha|]. split; [exact He|exact Hn].
Defined.

(** One fetch fails for good, two succeed: the load still succeeds. *)
Example load_with_failing_funnels :
  let network := fun (e : jsstring) (_ : nat) =>
    if bool_decide (e = lit "/funnels")
    then FetchResolved (mkResponse 500 (lit "Internal Server Error") None (Eff.Returned JNull))
    else FetchResolved (mkResponse 200 (lit "OK") (Some (lit "application/json"))
                                   (Eff.Returned (JArr [JStr e]))) in
  let before := mkState [] JUndefined JUndefined JUndefined true None 2 in
  fst (fetchData (mkConfig (lit "https://cms.example") (lit "k3y")) network
         (Some (mkQuery None None)) false (before, mkUI false (lit "30d")))
  = mkState [] (JArr [JStr (lit "/campaigns")]) (JArr [])
            (JArr [JStr (lit "/analytics?range=30d")]) false None 0.
Proof. vm_compute. reflexivity. Qed.

Lemma filter_sublist {A} (f : A -> bool) (l : list A) : sublist (List.filter f l) l.
Proof.
  induction l as [|x l IH]; cbn.
  - constructor.
  - destruct (f x); now constructor.
Qed.

Lemma lookup_map {A B} (f : A -> B) (l : list A) (i : nat) :
  map f l !! i = f <$> (l !! i).
Proof.
  revert i. induction l as [|x l IH]; intros [|i]; cbn; auto.
Qed.

(** C3. The updater of the contacts feed. An INSERT puts the new record
    in front and cuts the list to 100 entries (the source keeps the first
    99 of the old ones); a DELETE keeps, in order, exactly the contacts whose id is
    not strictly equal to the deleted record's id; an UPDATE keeps the
    length and replaces, in place, each contact whose id is strictly equal
    to the updated record's id by the updated record; an event of any
    other type returns the state as it was. The other fields of the state
    are never touched. *)
Theorem contacts_feed_updater (payload : change_payload) (prev : state) :
  let next := on_contacts_change payload prev in
  let same_id (a b : row) := strict_eq (get a "id") (get b "id") in
  (eventType payload = lit "INSERT" ->
     contacts next = take 100 (new payload :: contacts prev) /\
     hd_error (contacts next) = Some (new payload) /\
     length (contacts next) = Nat.min 100 (S (length (contacts prev)))) /\
  (eventType payload = lit "DELETE" ->
     sublist (contacts next) (contacts prev) /\
     forall c, In c (contacts next) <->
               In c (contacts prev) /\ same_id c (old payload) = false) /\
  (eventType payload = lit "UPDATE" ->
     length (contacts next) = length (contacts prev) /\
     forall i, contacts next !! i =
               (fun c => if same_id c (new payload) then new payload else c)
                 <$> (contacts prev !! i)) /\
  (eventType payload <> lit "INSERT" -> eventType payload <> lit "DELETE" ->
   eventType payload <> lit "UPDATE" -> next = prev) /\
  (campaigns next, funnels next, analytics next, loading next, error next, retryCount next)
  = (campaigns prev, funnels prev, analytics prev, loading prev, error prev, retryCount prev).
Proof.
  intros next same_id. subst next same_id. unfold on_contacts_change.
  split; [|split; [|split; [|split]]].
  - intros ->.
    rewrite (bool_decide_eq_false_2 (lit "INSERT" = lit "DELETE")) by (cbv; discriminate).
    rewrite bool_decide_eq_true_2 by reflexivity.
    cbn [contacts]. split; [reflexivity|]. split; [reflexivity|].
    cbn [length]. rewrite length_take. lia.
  - intros ->. rewrite bool_decide_eq_true_2 by reflexivity.
    cbn [contacts]. split; [apply filter_sublist|].
    intros c. rewrite filter_In, negb_true_iff. tauto.
  - intros ->.
    rewrite (bool_decide_eq_false_2 (lit "UPDATE" = lit "DELETE")) by (cbv; discriminate).
    rewrite (bool_decide_eq_false_2 (lit "UPDATE" = lit "INSERT")) by (cbv; discriminate).
    rewrite bool_decide_eq_true_2 by reflexivity.
    cbn [contacts]. split; [apply length_map|]. intros i. apply lookup_map.
  - intros Hi Hd Hu. now rewrite !bool_decide_eq_false_2.
  - repeat case_bool_decide; reflexivity.
Qed.

Lemma contacts_feed_updater_witness :
  let record (n : float) (who : string) : row :=
    <["id" := JNum n]> (<["first_name" := JStr (lit who)]> ∅) in
  let alice := record 1%float "Alice" in
  let bob := record 2%float "Bob" in
  let prev := mkState [alice; bob] (JArr []) (JArr []) (JObj ∅) false None 0 in
  contacts (on_contacts_change (mkChange (lit "INSERT") (record 3%float "Carol") ∅) prev)
    = [record 3%float "Carol"; alice; bob] /\
  (In bob (contacts (on_contacts_change (mkChange (lit "DELETE") ∅ (record 1%float "")) prev)) /\
   ~ In alice (contacts (on_contacts_change (mkChange (lit "DELETE") ∅ (record 1%float "")) prev))) /\
  contacts (on_contacts_change (mkChange (lit "UPDATE") (record 2%float "Robert") bob) prev) !! 1
    = Some (record 2%float "Robert") /\
  on_contacts_change (mkChange (lit "TRUNCATE") ∅ ∅) prev = prev.
Proof.
  intros record alice bob prev.
  split; [|split; [|split]].
  - destruct (contacts_feed_updater (mkChange (lit "INSERT") (record 3%float "Carol") ∅) prev)
      as (Hinsert & _).
    exact (proj1 (Hinsert eq_refl)).
  - destruct (contacts_feed_updater (mkChange (lit "DELETE") ∅ (record 1%float "")) prev)
      as (_ & Hdelete & _).
    destruct (Hdelete eq_refl) as [_ Hin]. split.
    + apply Hin. split; [right; left; reflexivity|reflexivity].
    + intros Habs. apply Hin in Habs as [_ Habs]. vm_compute in Habs. discriminate Habs.
  - destruct (contacts_feed_updater (mkChange (lit "UPDATE") (record 2%float "Robert") bob) prev)
      as (_ & _ & Hupdate & _).
    destruct (Hupdate eq_refl) as [_ Hat]. rewrite Hat. reflexivity.
  - destruct (contacts_feed_updater (mkChange (lit "TRUNCATE") ∅ ∅) prev)
      as (_ & _ & _ & Hother & _).
    apply Hother; cbv; discriminate.
Defined.

(** A list at the cap stays at the cap after an INSERT. *)
Example insert_into_full_list (c : row) (cs : list row) (prev : state) :
  length (contacts prev) = 100 ->
  length (contacts (on_contacts_change (mkChange (lit "INSERT") c ∅) prev)) = 100.
Proof.
  intros Hlen. unfold on_contacts_change. cbn [eventType new].
  rewrite (bool_decide_eq_false_2 (lit "INSERT" = lit "DELETE")) by (cbv; discriminate).
  rewrite bool_decide_eq_true_2 by reflexivity.
  cbn [contacts length]. rewrite length_take. lia.
Qed.

End DashboardFacts.

(** ** The checkout handler *)
Section CheckoutFacts.
Import JS Checkout.

(** The run of the handler once the bot record is there. *)
Lemma handler_with_bot (sv : services) (bot_id user_id : jsval) (b : bot) (tr : list event) :
  bots sv bot_id = Some b ->
  let p :=
    mkParams [lit "card"]
      [mkItem (mkPrice (lit "usd") (mkProduct (title b) (description b))
                       (PrimFloat.mul (price b) 100)) 1]
      (lit "payment")
      (lit "https://zapscout.io/success?session_id={CHECKOUT_SESSION_ID}")
      (lit "https://zapscout.io/cancel")
      (bot_id, user_id) in
  handler sv bot_id user_id tr =
  match stripe sv p with
  | Eff.Returned s => (Eff.Returned tt, tr ++ [SelectBot bot_id; CreateSession p; ResJson (id s)])
  | Eff.Thrown err => (Eff.Thrown err, tr ++ [SelectBot bot_id; CreateSession p])
  end.
Proof.
  intros Hb p.
  unfold handler, select_single, sessions_create, deref, emit, Eff.bind, Eff.modify, Eff.ret.
  rewrite Hb. cbn beta iota. fold p.
  destruct (stripe sv p) as [s|err]; cbn; repeat (rewrite <- app_assoc; cbn [app]); reflexivity.
Qed.

(** C4. For every bot record the handler fetches, it asks Stripe for
    exactly one session, with one line item whose unit amount is the
    bot's price multiplied by 100 (the multiplication of JavaScript
    numbers); for a price of 10 the unit amount is 1000. *)
Theorem checkout_unit_amount_is_price_times_100 (sv : services) (bot_id user_id : jsval)
    (b : bot) :
  bots sv bot_id = Some b ->
  exists p item,
    created (snd (handler sv bot_id user_id [])) = [p] /\
    line_items p = [item] /\
    unit_amount (item_price item) = PrimFloat.mul (price b) 100 /\
    (price b = 10%float -> unit_amount (item_price item) = 1000%float).
Proof.
  intros Hb. rewrite (handler_with_bot sv bot_id user_id b [] Hb). cbv zeta.
  match goal with |- context [stripe sv ?q] => set (p := q) end.
  exists p, (mkItem (mkPrice (lit "usd") (mkProduct (title b) (description b))
                             (PrimFloat.mul (price b) 100)) 1).
  split; [destruct (stripe sv p); reflexivity|].
  split; [reflexivity|]. split; [reflexivity|].
  cbn. intros ->. reflexivity.
Qed.

Lemma checkout_unit_amount_is_price_times_100_witness :
  let b := mkBot (JStr (lit "Scout")) (JStr (lit "Finds leads")) 10 in
  let sv := mkServices (fun _ => Some b)
                       (fun _ => Eff.Returned (mkSession (lit "cs_test_1"))) in
  bots sv (JNum 7) = Some b /\
  exists p item,
    created (snd (handler sv (JNum 7) (JStr (lit "u1")) [])) = [p] /\
    line_items p = [item] /\
    unit_amount (item_price item) = 1000%float.
Proof.
  intros b sv.
  assert (Hb : bots sv (JNum 7) = Some b) by reflexivity.
  split; [exact Hb|].
  destruct (checkout_unit_amount_is_price_times_100 sv (JNum 7) (JStr (lit "u1")) b Hb)
    as (p & item & Hcreated & Hitems & _ & Hten).
  exists p, item. split; [exact Hcreated|]. split; [exact Hitems|].
  exact (Hten eq_refl).
Defined.

(** C10. When no row matches the bot id, the lookup yields [null] and the
    handler throws a [TypeError] at [bot.title]: it neither asks Stripe for
    a session nor sends a response. *)
Theorem checkout_without_bot_throws (sv : services) (bot_id user_id : jsval)
    (tr : list event) :
  bots sv bot_id = None ->
  handler sv bot_id user_id tr =
  (Eff.Thrown (TypeError (lit "Cannot read properties of null (reading 'title')")),
   tr ++ [SelectBot bot_id]) /\
  created (snd (handler sv bot_id user_id tr)) = created tr /\
  responded (snd (handler sv bot_id user_id tr)) = responded tr.
Proof.
  intros Hb.
  assert (Hrun : handler sv bot_id user_id tr =
                 (Eff.Thrown (TypeError (lit "Cannot read properties of null (reading 'title')")),
                  tr ++ [SelectBot bot_id])).
  { unfold handler, select_single, deref, emit, Eff.bind, Eff.modify, Eff.ret.
    rewrite Hb. reflexivity. }
  rewrite Hrun. cbn [snd]. unfold created, responded.
  rewrite !omap_app. cbn. rewrite !app_nil_r. auto.
Qed.

Lemma checkout_without_bot_throws_witness :
  let sv := mkServices (fun _ => None)
                       (fun _ => Eff.Returned (mkSession (lit "cs_test_1"))) in
  bots sv (JNum 7) = None /\
  handler sv (JNum 7) (JStr (lit "u1")) [] =
  (Eff.Thrown (TypeError (lit "Cannot read properties of null (reading 'title')")),
   [SelectBot (JNum 7)]).
Proof.
  intros sv.
  assert (Hb : bots sv (JNum 7) = None) by reflexivity.
  split; [exact Hb|].
  exact (proj1 (checkout_without_bot_throws sv (JNum 7) (JStr (lit "u1")) [] Hb)).
Defined.

End CheckoutFacts.

(** ** The lead endpoint *)
Section LeadsFacts.
Import Leads.
Local Open Scope string_scope.

(** The guard of [create_contact]: nothing is called when it fires. *)
Lemma create_contact_guard (wp : wordpress) (p : params) (log : list wp_call) :
  empty (p !! "email") || empty (p !! "first_name") = true ->
  create_contact wp p log =
  (Eff.Returned (WP_Error (mkWpError "missing_required_fields"
                                     "Email and first_name are required" (Some 400%Z))),
   log).
Proof.
  intros Hguard. unfold create_contact, Eff.try_catch. rewrite Hguard. reflexivity.
Qed.

(** C5. A request whose email or first_name is missing or empty is
    answered with the error missing_required_fields of status 400, and
    the run calls nothing in WordPress: no lookup, no insert, no update,
    no webhook. *)
Theorem lead_without_email_or_first_name_is_rejected (wp : wordpress) (p : params)
    (log : list wp_call) :
  p !! "email" = None \/ p !! "email" = Some (PStr "") \/
  p !! "first_name" = None \/ p !! "first_name" = Some (PStr "") ->
  create_contact wp p log =
  (Eff.Returned (WP_Error (mkWpError "missing_required_fields"
                                     "Email and first_name are required" (Some 400%Z))),
   log) /\
  writes (snd (create_contact wp p log)) = writes log.
Proof.
  intros Hmissing.
  assert (Hguard : empty (p !! "email") || empty (p !! "first_name") = true).
  { destruct Hmissing as [H|[H|[H|H]]]; rewrite H; cbn;
      rewrite ?orb_true_r; reflexivity. }
  rewrite (create_contact_guard wp p log Hguard). auto.
Qed.

(** A WordPress installation for the runs below. *)
Local Abbreviation a_site :=
  (mkWordpress (fun v => match v with PStr s => s | _ => "" end)
               (fun v => match v with PStr s => s | _ => "" end)
               (fun _ => "{}") "2024-05-01 10:00:00" "https://cms.example"
               (Some (PStr "https://hooks.example/in")) (fun _ => []) (inl 41%Z) (inl tt)).

Lemma lead_without_email_or_first_name_is_rejected_witness :
  let p : params := <["email" := PStr "ann@example.org"]> (<["first_name" := PStr ""]> ∅) in
  (p !! "email" = None \/ p !! "email" = Some (PStr "") \/
   p !! "first_name" = None \/ p !! "first_name" = Some (PStr "")) /\
  create_contact a_site p [] =
  (Eff.Returned (WP_Error (mkWpError "missing_required_fields"
                                     "Email and first_name are required" (Some 400%Z))),
   []).
Proof.
  intros p.
  assert (Hmissing : p !! "email" = None \/ p !! "email" = Some (PStr "") \/
                     p !! "first_name" = None \/ p !! "first_name" = Some (PStr ""))
    by (right; right; right; reflexivity).
  split; [exact Hmissing|].
  exact (proj1 (lead_without_email_or_first_name_is_rejected a_site p [] Hmissing)).
Defined.

(** A complete lead does reach the create path. *)
Example complete_lead_is_created :
  let p : params :=
    <["email" := PStr "ann@example.org"]> (<["first_name" := PStr "Ann"]> ∅) in
  fst (create_contact a_site p []) =
    Eff.Returned (WP_REST_Response true 41 "Contact created successfully" true 201) /\
  length (writes (snd (create_contact a_site p []))) = 1.
Proof. split; vm_compute; reflexivity. Qed.

End LeadsFacts.

(** ** The lead endpoint beyond its guard *)
Section LeadsMoreFacts.
Import Leads LeadsLog.
Local Open Scope string_scope.

Ltac run_leads :=
  unfold create_contact, trigger_pipedream_webhook, Eff.try_catch, Eff.bind, call,
    Eff.modify, Eff.ret, Eff.throw; cbn beta iota.

Ltac tidy_log := repeat (rewrite <- app_assoc; cbn [app]).

(** What [empty()] accepts besides a missing key. *)
Lemma empty_values (v : phpval) :
  In v [PNull; PBool false; PInt 0; PFloat 0; PStr ""; PStr "0"; PArr []] ->
  empty (Some v) = true.
Proof.
  intros Hv. cbn in Hv.
  destruct Hv as [<-|[<-|[<-|[<-|[<-|[<-|[<-|[]]]]]]]]; reflexivity.
Qed.

(** X1. The guard of [create_contact] is PHP's [empty()]: an email or
    first_name that is [null], [false], [0], [0.0], the empty string, the
    string "0" or an empty array is rejected like a missing one, with
    status 400 and without any call into WordPress. *)
Theorem lead_with_php_empty_field_is_rejected (wp : wordpress) (p : params)
    (log : list wp_call) (v : phpval) :
  In v [PNull; PBool false; PInt 0; PFloat 0; PStr ""; PStr "0"; PArr []] ->
  p !! "email" = Some v \/ p !! "first_name" = Some v ->
  create_contact wp p log =
  (Eff.Returned (WP_Error (mkWpError "missing_required_fields"
                                     "Email and first_name are required" (Some 400%Z))),
   log).
Proof.
  intros Hv Hfield. apply empty_values in Hv.
  unfold create_contact, Eff.try_catch.
  destruct Hfield as [H|H]; rewrite H, Hv, ?orb_true_r; reflexivity.
Qed.

Lemma lead_with_php_empty_field_is_rejected_witness :
  let wp := mkWordpress (fun _ => "") (fun _ => "") (fun _ => "{}") "2024-05-01 10:00:00"
              "https://cms.example" None (fun _ => []) (inl 41%Z) (inl tt) in
  let p : params := <["email" := PStr "ann@example.org"]> (<["first_name" := PStr "0"]> ∅) in
  In (PStr "0") [PNull; PBool false; PInt 0; PFloat 0; PStr ""; PStr "0"; PArr []] /\
  (p !! "email" = Some (PStr "0") \/ p !! "first_name" = Some (PStr "0")) /\
  create_contact wp p [] =
  (Eff.Returned (WP_Error (mkWpError "missing_required_fields"
                                     "Email and first_name are required" (Some 400%Z))),
   []).
Proof.
  intros wp p.
  assert (Hv : In (PStr "0") [PNull; PBool false; PInt 0; PFloat 0; PStr ""; PStr "0"; PArr []])
    by (cbn; tauto).
  assert (Hf : p !! "email" = Some (PStr "0") \/ p !! "first_name" = Some (PStr "0"))
    by (right; reflexivity).
  split; [exact Hv|]. split; [exact Hf|].
  exact (lead_with_php_empty_field_is_rejected wp p [] (PStr "0") Hv Hf).
Defined.

(** The relay in closed form. *)
Lemma webhook_run (wp : wordpress) (ev : string) (id : Z) (p : params) (log : list wp_call) :
  let payload := mkWebhook ev id p (home_url wp) (current_time wp)
                           (current_time wp) "wordpress" (home_url wp) in
  let url := match pipedream_webhook_url wp with Some (PStr u) => u | _ => "" end in
  trigger_pipedream_webhook wp ev id p log =
  if empty (pipedream_webhook_url wp) then
    (Eff.Returned (inr (mkWpError "webhook_not_configured" "Webhook URL not set" None)),
     (log ++ [ErrorLog "Enterprise CRM: Pipedream webhook URL not configured"])%list)
  else
    match remote_post_result wp with
    | inl r => (Eff.Returned (inl r), (log ++ [WpRemotePost url payload 30 false])%list)
    | inr err =>
        (Eff.Returned (inr err),
         (log ++ [WpRemotePost url payload 30 false;
                  ErrorLog ("Enterprise CRM - Webhook failed: " ++ error_message err);
                  WpScheduleSingleEvent 300 "enterprise_crm_retry_webhook" payload])%list)
    end.
Proof.
  intros payload url. run_leads.
  destruct (empty (pipedream_webhook_url wp)); [reflexivity|].
  destruct (remote_post_result wp) as [r|err]; cbn; tidy_log; reflexivity.
Qed.

(** X2. The webhook relay never throws and posts at most once, without
    blocking and with a timeout of 30 seconds. A retry is queued exactly
    when a post was made and failed: one retry, 300 seconds later, with
    the payload of the failed post. Without a configured URL nothing is
    posted or queued. *)
Theorem webhook_relay_posts_once_and_queues_failed_post (wp : wordpress) (ev : string)
    (id : Z) (p : params) (log : list wp_call) :
  exists r added,
    trigger_pipedream_webhook wp ev id p log = (Eff.Returned r, (log ++ added)%list) /\
    length (remote_posts added) <= 1 /\
    Forall (fun c => match c with
                     | WpRemotePost _ _ timeout blocking => timeout = 30%Z /\ blocking = false
                     | _ => True
                     end) added /\
    scheduled_retries added =
      (if empty (pipedream_webhook_url wp) then []
       else match remote_post_result wp with
            | inl _ => []
            | inr _ => map (fun payload => (300%Z, payload)) (remote_posts added)
            end) /\
    remote_posts added =
      (if empty (pipedream_webhook_url wp) then []
       else [mkWebhook ev id p (home_url wp) (current_time wp)
                       (current_time wp) "wordpress" (home_url wp)]) /\
    (match r with inl _ => true | inr _ => false end
     = negb (empty (pipedream_webhook_url wp))
       && match remote_post_result wp with inl _ => true | inr _ => false end).
Proof.
  rewrite webhook_run. cbv zeta.
  destruct (empty (pipedream_webhook_url wp)) eqn:Hurl.
  - do 2 eexists. split; [reflexivity|]. cbn.
    repeat split; auto.
  - destruct (remote_post_result wp) as [r|err];
      do 2 eexists; (split; [reflexivity|]); cbn;
      repeat split; auto.
Qed.

(** X3. A complete lead whose email is already known is not duplicated:
    the only write is one [wp_update_post] of the first post found, no
    post is inserted, the contact is announced once and the answer is 201
    with that post's id. *)
Theorem known_email_is_updated_not_duplicated (wp : wordpress) (p : params)
    (log : list wp_call) (id : Z) (others : list Z) :
  empty (p !! "email") = false -> empty (p !! "first_name") = false ->
  existing_posts wp (p !! "email") = id :: others ->
  exists flag added,
    create_contact wp p log =
    (Eff.Returned (WP_REST_Response true id "Contact created successfully" flag 201),
     (log ++ added)%list) /\
    writes added = [WpUpdatePost id (current_time wp)] /\
    announced added = [id].
Proof.
  intros He Hf Hex. run_leads. rewrite He, Hf, Hex. cbn beta iota.
  destruct (empty (pipedream_webhook_url wp)); [|destruct (remote_post_result wp)];
    cbn; tidy_log; do 2 eexists; (split; [reflexivity|]); split; reflexivity.
Qed.

(** A lead with both fields, for the witnesses below. *)
Local Abbreviation ann :=
  (<["email" := PStr "ann@example.org"]> (<["first_name" := PStr "Ann"]> ∅) : params).

(** A site where [ids] are the posts found for any email. *)
Local Abbreviation site_with ids inserted posted :=
  (mkWordpress (fun v => match v with PStr s => s | _ => "" end)
               (fun v => match v with PStr s => s | _ => "" end)
               (fun _ => "{}") "2024-05-01 10:00:00" "https://cms.example"
               (Some (PStr "https://hooks.example/in")) (fun _ => ids) inserted posted).

Lemma known_email_is_updated_not_duplicated_witness :
  let wp := site_with [7%Z; 9%Z] (inl 41%Z) (inl tt) in
  empty (ann !! "email") = false /\ empty (ann !! "first_name") = false /\
  existing_posts wp (ann !! "email") = [7%Z; 9%Z] /\
  exists flag added,
    create_contact wp ann [] =
    (Eff.Returned (WP_REST_Response true 7 "Contact created successfully" flag 201),
     ([] ++ added)%list) /\
    writes added = [WpUpdatePost 7 (current_time wp)] /\
    announced added = [7%Z].
Proof.
  intros wp.
  assert (He : empty (ann !! "email") = false) by reflexivity.
  assert (Hf : empty (ann !! "first_name") = false) by reflexivity.
  assert (Hex : existing_posts wp (ann !! "email") = [7%Z; 9%Z]) by reflexivity.
  split; [exact He|]. split; [exact Hf|]. split; [exact Hex|].
  exact (known_email_is_updated_not_duplicated wp ann [] 7 [9%Z] He Hf Hex).
Defined.

(** X4. A complete lead with an unknown email is stored by exactly one
    [wp_insert_post]: a published crm_contacts post titled with the email
    as sent, whose meta holds the sanitized email, the status active and
    the source, unknown when none was sent. The answer is 201 with the
    id the insert returned. *)
Theorem unknown_email_is_inserted_once (wp : wordpress) (p : params)
    (log : list wp_call) (id : Z) :
  empty (p !! "email") = false -> empty (p !! "first_name") = false ->
  existing_posts wp (p !! "email") = [] ->
  insert_result wp = inl id ->
  exists flag added meta,
    create_contact wp p log =
    (Eff.Returned (WP_REST_Response true id "Contact created successfully" flag 201),
     (log ++ added)%list) /\
    writes added = [WpInsertPost "crm_contacts" (p !! "email") "publish" meta] /\
    map fst meta = ["email"; "first_name"; "last_name"; "phone"; "company"; "source";
                    "tags"; "custom_fields"; "created_at"; "status"] /\
    In ("email", PStr (sanitize_email wp (coalesce (p !! "email") PNull))) meta /\
    In ("source", PStr (sanitize_text_field wp (coalesce (p !! "source") (PStr "unknown"))))
       meta /\
    In ("status", PStr "active") meta /\
    announced added = [id].
Proof.
  intros He Hf Hex Hins. run_leads. rewrite He, Hf, Hex, Hins. cbn beta iota.
  destruct (empty (pipedream_webhook_url wp)); [|destruct (remote_post_result wp)];
    cbn; tidy_log; do 3 eexists; (split; [reflexivity|]);
    (split; [reflexivity|]); (split; [reflexivity|]); cbn; tauto.
Qed.

Lemma unknown_email_is_inserted_once_witness :
  let wp := site_with (@nil Z) (inl 41%Z) (inr (mkWpError "http_request_failed" "timed out" None)) in
  empty (ann !! "email") = false /\ empty (ann !! "first_name") = false /\
  existing_posts wp (ann !! "email") = [] /\ insert_result wp = inl 41%Z /\
  exists flag added meta,
    create_contact wp ann [] =
    (Eff.Returned (WP_REST_Response true 41 "Contact created successfully" flag 201),
     ([] ++ added)%list) /\
    writes added = [WpInsertPost "crm_contacts" (ann !! "email") "publish" meta] /\
    In ("source", PStr "unknown") meta.
Proof.
  intros wp.
  assert (He : empty (ann !! "email") = false) by reflexivity.
  assert (Hf : empty (ann !! "first_name") = false) by reflexivity.
  assert (Hex : existing_posts wp (ann !! "email") = []) by reflexivity.
  assert (Hins : insert_result wp = inl 41%Z) by reflexivity.
  split; [exact He|]. split; [exact Hf|]. split; [exact Hex|]. split; [exact Hins|].
  destruct (unknown_email_is_inserted_once wp ann [] 41 He Hf Hex Hins)
    as (flag & added & meta & Hrun & Hw & _ & _ & Hsrc & _).
  exists flag, added, meta. split; [exact Hrun|]. split; [exact Hw|]. exact Hsrc.
Defined.

(** X5. When [wp_insert_post] answers with an error, the endpoint answers
    500 contact_creation_failed with the error's message, logs the
    failure, and neither posts to the webhook nor announces a contact. *)
Theorem failed_insert_gives_500_and_no_webhook (wp : wordpress) (p : params)
    (log : list wp_call) (err : wp_error) :
  empty (p !! "email") = false -> empty (p !! "first_name") = false ->
  existing_posts wp (p !! "email") = [] ->
  insert_result wp = inr err ->
  exists added,
    create_contact wp p log =
    (Eff.Returned
       (WP_Error (mkWpError "contact_creation_failed"
                    ("Failed to process contact: Failed to create contact: "
                     ++ error_message err) (Some 500%Z))),
     (log ++ added)%list) /\
    remote_posts added = [] /\ scheduled_retries added = [] /\ announced added = [] /\
    In (ErrorLog ("Enterprise CRM - Contact creation failed: Failed to create contact: "
                  ++ error_message err)) added.
Proof.
  intros He Hf Hex Hins. run_leads. rewrite He, Hf, Hex, Hins. cbn.
  tidy_log. eexists. split; [reflexivity|]. cbn. tauto.
Qed.

Lemma failed_insert_gives_500_and_no_webhook_witness :
  let err := mkWpError "db_insert_error" "Could not insert post into the database." None in
  let wp := site_with (@nil Z) (inr err) (inl tt) in
  empty (ann !! "email") = false /\ empty (ann !! "first_name") = false /\
  existing_posts wp (ann !! "email") = [] /\ insert_result wp = inr err /\
  exists added,
    create_contact wp ann [] =
    (Eff.Returned
       (WP_Error (mkWpError "contact_creation_failed"
                    ("Failed to process contact: Failed to create contact: "
                     ++ error_message err) (Some 500%Z))),
     ([] ++ added)%list) /\
    remote_posts added = [].
Proof.
  intros err wp.
  assert (He : empty (ann !! "email") = false) by reflexivity.
  assert (Hf : empty (ann !! "first_name") = false) by reflexivity.
  assert (Hex : existing_posts wp (ann !! "email") = []) by reflexivity.
  assert (Hins : insert_result wp = inr err) by reflexivity.
  split; [exact He|]. split; [exact Hf|]. split; [exact Hex|]. split; [exact Hins|].
  destruct (failed_insert_gives_500_and_no_webhook wp ann [] err He Hf Hex Hins)
    as (added & Hrun & Hposts & _).
  exists added. split; [exact Hrun|exact Hposts].
Defined.

(** X6. [create_contact] never throws, and its status is decided by three
    tests only: 400 when the guard fires, 500 when the email is unknown
    and the insert answers with an error, 201 otherwise. A webhook
    failure never changes the status; it only clears the flag
    webhook_triggered, which is set exactly when a URL is configured and
    the post did not fail. Nothing is written when the guard fires, and
    nothing is posted or announced unless the status is 201. *)
Theorem create_contact_status (wp : wordpress) (p : params) (log : list wp_call) :
  let guard := empty (p !! "email") || empty (p !! "first_name") in
  let insert_fails :=
    match existing_posts wp (p !! "email"), insert_result wp with
    | [], inr _ => true
    | _, _ => false
    end in
  let status := if guard then 400%Z else if insert_fails then 500%Z else 201%Z in
  exists r added,
    create_contact wp p log = (Eff.Returned r, (log ++ added)%list) /\
    status_of r = Some status /\
    (if guard then added = [] else length (writes added) = 1) /\
    (if Z.eqb status 201 then
       length (announced added) = 1 /\
       match r with
       | WP_REST_Response _ _ _ triggered _ =>
           triggered = negb (empty (pipedream_webhook_url wp))
                       && match remote_post_result wp with inl _ => true | inr _ => false end
       | WP_Error _ => False
       end
     else remote_posts added = [] /\ announced added = []).
Proof.
  intros guard insert_fails status. subst guard insert_fails status.
  run_leads.
  destruct (empty (p !! "email") || empty (p !! "first_name")).
  - exists (WP_Error (mkWpError "missing_required_fields"
                                "Email and first_name are required" (Some 400%Z))), [].
    rewrite app_nil_r. cbn. auto.
  - cbn beta iota.
    destruct (existing_posts wp (p !! "email")) as [|id others];
      [destruct (insert_result wp) as [id|err]|]; cbn beta iota;
      try (destruct (empty (pipedream_webhook_url wp));
           [|destruct (remote_post_result wp)]);
      cbn; tidy_log; do 2 eexists; (split; [reflexivity|]); cbn; auto.
Qed.

End LeadsMoreFacts.

(** ** API keys *)
Section ApiKeysFacts.
Import Leads ApiKeys.
Local Open Scope string_scope.

Ltac run_keys :=
  unfold verify_api_key, generate_api_key, insert, get_row, update_last_used,
    Eff.bind, Eff.modify, Eff.ret; cbn beta iota.

(** Stamping rows does not change which row a key finds, up to the stamp. *)
Lemma find_after_stamp (db : database) (key : string) (f : key_row -> key_row)
    (table : list key_row) :
  (forall r, credentials (f r) = credentials r) ->
  List.find (fun r => sql_eq db (api_key r) key && is_active r) (map f table) =
  f <$> List.find (fun r => sql_eq db (api_key r) key && is_active r) table.
Proof.
  intros Hf. induction table as [|r table IH]; cbn; [reflexivity|].
  pose proof (Hf r) as Hr. unfold credentials in Hr. injection Hr as -> ->.
  destruct (sql_eq db (api_key r) key && is_active r); [reflexivity|exact IH].
Qed.

(** The run of [verify_api_key] in closed form. *)
Lemma verify_run (db : database) (header : option string) (table : list key_row) :
  verify_api_key db header table =
  if falsy header then
    (Eff.Returned (Denied (mkWpError "missing_api_key" "API key required" (Some 401%Z))),
     table)
  else
    match List.find (fun r => sql_eq db (api_key r) (default "" header) && is_active r)
                    table with
    | None =>
        (Eff.Returned (Denied (mkWpError "invalid_api_key" "Invalid API key" (Some 401%Z))),
         table)
    | Some k =>
        (Eff.Returned Allowed,
         map (fun r =>
                if Z.eqb (id r) (id k)
                then mkKey (id r) (api_key r) (key_name r) (permissions r) (created_at r)
                           (Some (now db)) (is_active r)
                else r) table)
    end.
Proof.
  run_keys. destruct (falsy header); [reflexivity|].
  destruct (List.find _ table); reflexivity.
Qed.

(** Acceptance, as a condition on the header and the table. *)
Lemma verify_accepts_iff (db : database) (header : option string) (table : list key_row) :
  fst (verify_api_key db header table) = Eff.Returned Allowed <->
  exists key r,
    header = Some key /\ key <> "" /\ key <> "0" /\
    In r table /\ sql_eq db (api_key r) key = true /\ is_active r = true.
Proof.
  rewrite verify_run.
  destruct header as [key|]; cbn [falsy default].
  - destruct (bool_decide (key = "")) eqn:H1; [|destruct (bool_decide (key = "0")) eqn:H2];
      cbn [orb fst].
    + apply bool_decide_eq_true in H1. split; [discriminate|].
      intros (k & r & Hk & Hne & _). injection Hk as <-. contradiction.
    + apply bool_decide_eq_true in H2. split; [discriminate|].
      intros (k & r & Hk & _ & Hne & _). injection Hk as <-. contradiction.
    + apply bool_decide_eq_false in H1, H2.
      destruct (List.find _ table) as [k|] eqn:Hfind; cbn [fst].
      * split; [intros _|reflexivity].
        apply find_some in Hfind as [Hin Hm]. apply andb_true_iff in Hm as [Hm Ha].
        exists key, k. repeat (split; [first [reflexivity|assumption]|]). assumption.
      * split; [discriminate|].
        intros (k & r & Hk & _ & _ & Hin & Hm & Ha). injection Hk as <-.
        pose proof (find_none _ _ Hfind r Hin) as Hn. cbn in Hn.
        rewrite Hm, Ha in Hn. discriminate Hn.
  - cbn. split; [discriminate|]. intros (k & r & Hk & _). discriminate Hk.
Qed.

(** X7. A key is accepted exactly when the header is present, is neither
    empty nor "0", and equals, under the column's collation, the key of
    an active row. Every refusal is a 401 and leaves the table as it
    was; in particular a deactivated key is refused. *)
Theorem key_accepted_iff_active_row_matches (db : database) (header : option string)
    (table : list key_row) :
  (fst (verify_api_key db header table) = Eff.Returned Allowed <->
   exists key r,
     header = Some key /\ key <> "" /\ key <> "0" /\
     In r table /\ sql_eq db (api_key r) key = true /\ is_active r = true) /\
  match fst (verify_api_key db header table) with
  | Eff.Returned Allowed => True
  | Eff.Returned (Denied e) =>
      error_status e = Some 401%Z /\ snd (verify_api_key db header table) = table
  | Eff.Thrown _ => False
  end.
Proof.
  split; [apply verify_accepts_iff|].
  rewrite verify_run.
  destruct (falsy header); cbn; [auto|].
  destruct (List.find _ table); cbn; auto.
Qed.

(** X8. Checking a key changes nothing but [last_used]: the table keeps
    its rows in place with their ids, keys, names, permissions, creation
    dates and active flags, so any header is judged after the check as it
    was before. Using a key never wears it out and never affects another
    key. *)
Theorem checking_a_key_only_stamps_last_used (db : database) (header other : option string)
    (table : list key_row) :
  let after := snd (verify_api_key db header table) in
  map (fun r => (id r, api_key r, key_name r, permissions r, created_at r, is_active r)) after
  = map (fun r => (id r, api_key r, key_name r, permissions r, created_at r, is_active r))
        table /\
  fst (verify_api_key db other after) = fst (verify_api_key db other table).
Proof.
  intros after. subst after.
  assert (Hshape : forall h, exists f,
             snd (verify_api_key db h table) = map f table /\
             forall r, (id (f r), api_key (f r), key_name (f r), permissions (f r),
                        created_at (f r), is_active (f r))
                       = (id r, api_key r, key_name r, permissions r, created_at r,
                          is_active r)).
  { intros h. rewrite verify_run.
    destruct (falsy h); [|destruct (List.find _ table) as [k|]]; cbn [snd].
    - exists (fun r => r). now rewrite map_id.
    - eexists. split; [reflexivity|]. intros r. cbn beta.
      destruct (Z.eqb (id r) (id k)); reflexivity.
    - exists (fun r => r). now rewrite map_id. }
  destruct (Hshape header) as (f & -> & Hf). split.
  - rewrite map_map. apply map_ext. exact Hf.
  - rewrite !verify_run. destruct (falsy other); [reflexivity|].
    rewrite find_after_stamp.
    + destruct (List.find _ table); reflexivity.
    + intros r. specialize (Hf r). unfold credentials. congruence.
Qed.

(** X9. A generated key is accepted: when [generate_api_key] returns a
    key, a request carrying it passes [verify_api_key] on the table as
    it then is, provided the generated password is non-empty, is not
    "0", and equals itself under the collation. When the insert fails the
    table is as before and an error is returned instead of a key. Keys
    accepted before are still accepted afterwards. *)
Theorem generated_key_is_accepted (db : database) (name : string) (perms : list string)
    (table : list key_row) :
  wp_generate_password db <> "" -> wp_generate_password db <> "0" ->
  sql_eq db (wp_generate_password db) (wp_generate_password db) = true ->
  let after := snd (generate_api_key db name perms table) in
  match fst (generate_api_key db name perms table) with
  | Eff.Returned (inl key) =>
      key = wp_generate_password db /\
      fst (verify_api_key db (Some key) after) = Eff.Returned Allowed /\
      exists new_id,
        after = (table ++ [mkKey new_id key name (encode_permissions db perms) (now db)
                                 None true])%list
  | Eff.Returned (inr e) => after = table /\ error_code e = "key_generation_failed"
  | Eff.Thrown _ => False
  end /\
  forall header,
    fst (verify_api_key db header table) = Eff.Returned Allowed ->
    fst (verify_api_key db header after) = Eff.Returned Allowed.
Proof.
  intros Hne H0 Hrefl after. subst after. split.
  - assert (Hgen : generate_api_key db name perms table =
                   match insert_outcome db with
                   | Some new_id =>
                       (Eff.Returned (inl (wp_generate_password db)),
                        (table ++ [mkKey new_id (wp_generate_password db) name
                                         (encode_permissions db perms) (now db) None true])%list)
                   | None =>
                       (Eff.Returned (inr (mkWpError "key_generation_failed"
                                                     "Failed to generate API key" None)),
                        table)
                   end).
    { run_keys. destruct (insert_outcome db); reflexivity. }
    rewrite Hgen. destruct (insert_outcome db) as [new_id|]; cbn [fst snd]; [|auto].
    split; [reflexivity|]. split; [|eauto].
    apply verify_accepts_iff.
    eexists _, _. split; [reflexivity|]. split; [exact Hne|]. split; [exact H0|].
    split; [apply in_or_app; right; left; reflexivity|]. cbn. auto.
  - intros header Hacc.
    apply verify_accepts_iff in Hacc as (key & r & Hh & Hk1 & Hk2 & Hin & Hm & Ha).
    apply verify_accepts_iff.
    exists key, r. repeat (split; [assumption|]). split; [|auto].
    unfold generate_api_key, insert, Eff.bind, Eff.ret.
    destruct (insert_outcome db); cbn; [|exact Hin].
    apply in_or_app. left. exact Hin.
Qed.

Lemma generated_key_is_accepted_witness :
  let db := mkDatabase String.eqb "2024-05-01 10:00:00"
              "k9Qw3ZxT7bLm2VnR8cYp5HsD1fGj4KaU6eWo0iNtBqXzCyMvAlSrEdFgPhJuIkOl"
              (fun _ => "[]") (Some 1%Z) in
  wp_generate_password db <> "" /\ wp_generate_password db <> "0" /\
  sql_eq db (wp_generate_password db) (wp_generate_password db) = true /\
  fst (verify_api_key db (Some (wp_generate_password db))
         (snd (generate_api_key db "dashboard" [] []))) = Eff.Returned Allowed.
Proof.
  intros db.
  assert (Hne : wp_generate_password db <> "") by discriminate.
  assert (H0 : wp_generate_password db <> "0") by discriminate.
  assert (Hrefl : sql_eq db (wp_generate_password db) (wp_generate_password db) = true)
    by reflexivity.
  split; [exact Hne|]. split; [exact H0|]. split; [exact Hrefl|].
  pose proof (generated_key_is_accepted db "dashboard" [] [] Hne H0 Hrefl) as [Hgen _].
  cbn in Hgen. exact (proj1 (proj2 Hgen)).
Defined.

End ApiKeysFacts.

(** ** The HTTP front of the router *)
Section ApiServerFacts.
Import JS AIRouter ApiServer.

(** X10. For a body whose input is a string, [POST /api/ai] answers 200
    after exactly one post, whatever the endpoint does: a backend that is
    down shows up as a 200 whose text is the helper's fallback, never as
    a 500. For a body that leaves the input out it answers 500
    "AI routing failed" and nothing is sent to the inference endpoint. *)
Theorem api_ai_answers_200_for_text_and_500_without_input (b : request_body) (w : world) :
  match body_input b with
  | None =>
      post_api_ai b w =
      (Eff.Returned (Failed 500 (lit "AI routing failed")),
       mkWorld (inference w) (sent w)
         (console w ++ [(lit "Router error:",
                         lit "Cannot read properties of undefined (reading 'length')")]))
  | Some i =>
      exists text call w',
        post_api_ai b w = (Eff.Returned (Ok200 text), w') /\
        sent w' = sent w ++ [call] /\
        match inference w (length (sent w)) with
        | AxiosRejected _ =>
            text = lit "[Qwen] Qwen unavailable." \/
            text = lit "[Strategist] Strategist unavailable."
        | AxiosResolved _ => True
        end
  end.
Proof.
  unfold post_api_ai, route_body, Eff.try_catch, Eff.bind.
  destruct (body_input b) as [i|]; [|reflexivity].
  set (req := mkRequest (body_userId b) i (body_language b)).
  destruct ((length (input req) <? 280) && negb (regex_match keywords (input req)))
    eqn:Hcond.
  - rewrite (route_fast req w Hcond). unfold Eff.bind. rewrite askQwen_run.
    destruct (inference w (length (sent w))) as [[|r]|err]; cbn;
      do 3 eexists; (split; [reflexivity|]); (split; [reflexivity|]); auto.
  - rewrite (route_deep req w Hcond). unfold Eff.bind. rewrite askStrategist_run.
    destruct (inference w (length (sent w))) as [[|r]|err]; cbn;
      do 3 eexists; (split; [reflexivity|]); (split; [reflexivity|]); auto.
Qed.

End ApiServerFacts.

(** ** The contacts feed as a stream *)
Section FeedFacts.
Import JS Dashboard DashboardViews.

(** The three event names differ. *)
Lemma insert_is_not_delete : lit "INSERT" <> lit "DELETE".
Proof. cbv. discriminate. Qed.

Lemma update_is_not_delete : lit "UPDATE" <> lit "DELETE".
Proof. cbv. discriminate. Qed.

Lemma update_is_not_insert : lit "UPDATE" <> lit "INSERT".
Proof. cbv. discriminate. Qed.

(** The contacts after one event, by its type. *)
Lemma contacts_after_change (e : change_payload) (st : state) :
  contacts (on_contacts_change e st) =
  if bool_decide (eventType e = lit "DELETE") then
    List.filter (fun c => negb (strict_eq (get c "id") (get (old e) "id"))) (contacts st)
  else if bool_decide (eventType e = lit "INSERT") then
    new e :: take 99 (contacts st)
  else if bool_decide (eventType e = lit "UPDATE") then
    map (fun c => if strict_eq (get c "id") (get (new e) "id") then new e else c)
        (contacts st)
  else contacts st.
Proof.
  unfold on_contacts_change. repeat case_bool_decide; reflexivity.
Qed.

Lemma change_keeps_other_fields (e : change_payload) (st : state) :
  on_contacts_change e st =
  mkState (contacts (on_contacts_change e st)) (campaigns st) (funnels st) (analytics st)
          (loading st) (error st) (retryCount st).
Proof.
  unfold on_contacts_change. destruct st. repeat case_bool_decide; reflexivity.
Qed.

Lemma filter_length_le {A} (f : A -> bool) (l : list A) :
  length (List.filter f l) <= length l.
Proof.
  induction l as [|x l IH]; cbn; [lia|]. destruct (f x); cbn; lia.
Qed.

(** X11. The cap is an invariant of the feed: a list of at most 100
    contacts has at most 100 contacts after any run of change
    notifications, of whatever types and in whatever order. *)
Theorem contacts_cap_is_invariant (events : list change_payload) (st : state) :
  length (contacts st) <= 100 ->
  length (contacts (after_changes events st)) <= 100.
Proof.
  unfold after_changes. revert st.
  induction events as [|e events IH]; intros st Hcap; cbn [fold_left]; [exact Hcap|].
  apply IH. rewrite contacts_after_change.
  repeat case_bool_decide.
  - pose proof (filter_length_le
                  (fun c => negb (strict_eq (get c "id") (get (old e) "id"))) (contacts st)).
    lia.
  - cbn [length]. rewrite length_take. lia.
  - rewrite length_map. exact Hcap.
  - exact Hcap.
Qed.

Lemma contacts_cap_is_invariant_witness :
  let record (n : float) : row := <["id" := JNum n]> ∅ in
  let st := mkState [record 1%float; record 2%float] (JArr []) (JArr []) (JObj ∅) false None 0 in
  let events := [mkChange (lit "INSERT") (record 3%float) ∅; mkChange (lit "DELETE") ∅ (record 1%float);
                 mkChange (lit "UPDATE") (record 2%float) (record 2%float)] in
  length (contacts st) <= 100 /\
  length (contacts (after_changes events st)) <= 100.
Proof.
  intros record st events.
  assert (Hcap : length (contacts st) <= 100) by (cbn; lia).
  split; [exact Hcap|].
  exact (contacts_cap_is_invariant events st Hcap).
Defined.

(** X12. A repeated notification is harmless for UPDATE and DELETE:
    applying the same UPDATE or the same DELETE twice gives the state
    that applying it once gives. *)
Theorem repeated_update_or_delete_changes_nothing (e : change_payload) (st : state) :
  eventType e = lit "UPDATE" \/ eventType e = lit "DELETE" ->
  on_contacts_change e (on_contacts_change e st) = on_contacts_change e st.
Proof.
  intros Htype.
  rewrite (change_keeps_other_fields e (on_contacts_change e st)).
  rewrite (change_keeps_other_fields e st) at 2 3 4 5 6 7 8.
  cbn [campaigns funnels analytics loading error retryCount contacts].
  f_equal.
  rewrite (contacts_after_change e (on_contacts_change e st)), (contacts_after_change e st).
  destruct Htype as [Ht|Ht]; rewrite Ht.
  - rewrite (bool_decide_eq_false_2 _ update_is_not_delete).
    rewrite (bool_decide_eq_false_2 _ update_is_not_insert).
    rewrite bool_decide_eq_true_2 by reflexivity.
    rewrite map_map. apply map_ext. intros c.
    destruct (strict_eq (get c "id") (get (new e) "id")) eqn:Hc; [|now rewrite Hc].
    now destruct (strict_eq (get (new e) "id") (get (new e) "id")).
  - rewrite bool_decide_eq_true_2 by reflexivity.
    induction (contacts st) as [|c cs IH]; cbn; [reflexivity|].
    destruct (strict_eq (get c "id") (get (old e) "id")) eqn:Hc; cbn; [exact IH|].
    rewrite Hc. cbn. now rewrite IH.
Qed.

Lemma repeated_update_or_delete_changes_nothing_witness :
  let record (n : float) (who : string) : row :=
    <["id" := JNum n]> (<["first_name" := JStr (lit who)]> ∅) in
  let st := mkState [record 1%float "Alice"; record 2%float "Bob"] (JArr []) (JArr []) (JObj ∅)
                    false None 0 in
  let e := mkChange (lit "UPDATE") (record 2%float "Robert") (record 2%float "Bob") in
  (eventType e = lit "UPDATE" \/ eventType e = lit "DELETE") /\
  on_contacts_change e (on_contacts_change e st) = on_contacts_change e st.
Proof.
  intros record st e.
  assert (Ht : eventType e = lit "UPDATE" \/ eventType e = lit "DELETE")
    by (left; reflexivity).
  split; [exact Ht|].
  exact (repeated_update_or_delete_changes_nothing e st Ht).
Defined.

(** X13. An UPDATE or a DELETE for an id that no contact of the list has
    leaves the state as it was: an UPDATE never adds the record it
    carries. *)
Theorem change_for_absent_id_changes_nothing (e : change_payload) (st : state) :
  (eventType e = lit "UPDATE" /\
   Forall (fun c => strict_eq (get c "id") (get (new e) "id") = false) (contacts st)) \/
  (eventType e = lit "DELETE" /\
   Forall (fun c => strict_eq (get c "id") (get (old e) "id") = false) (contacts st)) ->
  on_contacts_change e st = st.
Proof.
  intros Habsent.
  rewrite (change_keeps_other_fields e st). destruct st as [cs ca fu an lo er rc].
  cbn [campaigns funnels analytics loading error retryCount]. f_equal.
  rewrite contacts_after_change. cbn [contacts] in *.
  destruct Habsent as [[Ht Hall]|[Ht Hall]]; rewrite Ht.
  - rewrite (bool_decide_eq_false_2 _ update_is_not_delete).
    rewrite (bool_decide_eq_false_2 _ update_is_not_insert).
    rewrite bool_decide_eq_true_2 by reflexivity.
    induction Hall as [|c cs' Hc Hall IH]; cbn; [reflexivity|]. now rewrite Hc, IH.
  - rewrite bool_decide_eq_true_2 by reflexivity.
    induction Hall as [|c cs' Hc Hall IH]; cbn; [reflexivity|]. rewrite Hc. cbn. now rewrite IH.
Qed.

Lemma change_for_absent_id_changes_nothing_witness :
  let record (n : float) : row := <["id" := JNum n]> ∅ in
  let st := mkState [record 1%float; record 2%float] (JArr []) (JArr []) (JObj ∅) false None 0 in
  let e := mkChange (lit "UPDATE") (record 5%float) (record 5%float) in
  ((eventType e = lit "UPDATE" /\
    Forall (fun c => strict_eq (get c "id") (get (new e) "id") = false) (contacts st)) \/
   (eventType e = lit "DELETE" /\
    Forall (fun c => strict_eq (get c "id") (get (old e) "id") = false) (contacts st))) /\
  on_contacts_change e st = st.
Proof.
  intros record st e.
  assert (H : (eventType e = lit "UPDATE" /\
               Forall (fun c => strict_eq (get c "id") (get (new e) "id") = false)
                      (contacts st)) \/
              (eventType e = lit "DELETE" /\
               Forall (fun c => strict_eq (get c "id") (get (old e) "id") = false)
                      (contacts st))).
  { left. split; [reflexivity|]. repeat constructor. }
  split; [exact H|].
  exact (change_for_absent_id_changes_nothing e st H).
Defined.

(** X14. A DELETE undoes an INSERT: when a record with a fresh id (one
    that is strictly equal to itself and to no id in the list) is
    inserted into a list of fewer than 100 contacts and then deleted, the
    state is what it was before the two events. *)
Theorem delete_undoes_insert (record : row) (st : state) :
  length (contacts st) < 100 ->
  strict_eq (get record "id") (get record "id") = true ->
  Forall (fun c => strict_eq (get c "id") (get record "id") = false) (contacts st) ->
  after_changes [mkChange (lit "INSERT") record ∅; mkChange (lit "DELETE") ∅ record] st = st.
Proof.
  intros Hlen Hself Hfresh. unfold after_changes. cbn [fold_left].
  set (inserted := on_contacts_change (mkChange (lit "INSERT") record ∅) st).
  rewrite (change_keeps_other_fields _ inserted).
  subst inserted. rewrite (change_keeps_other_fields _ st) at 2 3 4 5 6 7.
  cbn [campaigns funnels analytics loading error retryCount].
  destruct st as [cs ca fu an lo er rc].
  cbn [campaigns funnels analytics loading error retryCount contacts] in *. f_equal.
  rewrite !contacts_after_change. cbn [eventType old new contacts].
  rewrite (bool_decide_eq_false_2 _ insert_is_not_delete).
  rewrite !bool_decide_eq_true_2 by reflexivity.
  cbn [List.filter]. rewrite Hself. cbn [negb].
  rewrite take_ge by lia.
  induction Hfresh as [|c cs' Hc Hall IH]; cbn; [reflexivity|].
  rewrite Hc. cbn. rewrite IH; [reflexivity|]. cbn in Hlen. lia.
Qed.

Lemma delete_undoes_insert_witness :
  let record (n : float) : row := <["id" := JNum n]> ∅ in
  let st := mkState [record 1%float; record 2%float] (JArr []) (JArr []) (JObj ∅) false None 0 in
  length (contacts st) < 100 /\
  strict_eq (get (record 3%float) "id") (get (record 3%float) "id") = true /\
  Forall (fun c => strict_eq (get c "id") (get (record 3%float) "id") = false) (contacts st) /\
  after_changes [mkChange (lit "INSERT") (record 3%float) ∅; mkChange (lit "DELETE") ∅ (record 3%float)] st
  = st.
Proof.
  intros record st.
  assert (Hlen : length (contacts st) < 100) by (cbn; lia).
  assert (Hself : strict_eq (get (record 3%float) "id") (get (record 3%float) "id") = true)
    by reflexivity.
  assert (Hfresh : Forall (fun c => strict_eq (get c "id") (get (record 3%float) "id") = false)
                          (contacts st)) by (repeat constructor).
  split; [exact Hlen|]. split; [exact Hself|]. split; [exact Hfresh|].
  exact (delete_undoes_insert (record 3%float) st Hlen Hself Hfresh).
Defined.

End FeedFacts.

(** ** The retrying fetch: what it returns and how long it waits *)
Section WpFetchMoreFacts.
Import JS Dashboard DashboardViews.

Variable responses : nat -> fetch_result.
Variable url method : jsstring.
Variable body : option jsval.
Variable retries : nat.

Local Abbreviation attempt_at := (attempt responses url method body retries).
Local Abbreviation loop := (wpFetch_loop responses url method body retries).

Lemma slept_app (a b : list event) : slept (a ++ b) = (slept a + slept b)%N.
Proof.
  unfold slept. induction a as [|e a IH]; cbn; [reflexivity|].
  destruct e; cbn; rewrite ?IH; lia.
Qed.

(** How a round can end: with the JSON of an ok response, by going on
    (only while retries remain, after a wait of at most 2^i seconds), or
    with an error. *)
Lemma attempt_cases (i : nat) (tr : list event) :
  i <= retries ->
  (exists v r rest,
     attempt_at i tr = (Eff.Returned (Done v), tr ++ rest) /\ slept rest = 0%N /\
     responses i = FetchResolved r /\ ok r = true /\ is_json r = true /\
     json r = Eff.Returned v) \/
  (exists rest,
     attempt_at i tr = (Eff.Returned Continue, tr ++ rest) /\ i < retries /\
     (slept rest <= 2 ^ N.of_nat i * 1000)%N) \/
  (exists err rest,
     attempt_at i tr = (Eff.Thrown err, tr ++ rest) /\ slept rest = 0%N).
Proof.
  intros Hi.
  unfold attempt, Eff.try_catch, Eff.bind, emit, Eff.modify, await_fetch, await_json,
    Eff.throw, Eff.ret; cbn beta iota.
  assert (Hlast : (i =? retries) = false -> i < retries)
    by (intros H; apply Nat.eqb_neq in H; lia).
  destruct (responses i) as [r|err]; cbn beta iota;
    [destruct (ok r) eqn:Hok; cbn [negb];
     [destruct (is_json r) eqn:Hct; cbn [negb];
      [destruct (json r) as [v|err] eqn:Hj; cbn beta iota|]
     |destruct ((500 <=? status r)%N && (i <? retries)) eqn:Hretry; cbn beta iota]|].
  1: { left. exists v, r, [SetTimeout 10000; Fetch url method body; ClearTimeout].
       repeat (rewrite <- app_assoc; cbn [app]).
       split; [reflexivity|]. split; [reflexivity|]. auto. }
  3: { right. left.
       exists [SetTimeout 10000; Fetch url method body; ClearTimeout;
               Sleep (2 ^ N.of_nat i * 1000)].
       repeat (rewrite <- app_assoc; cbn [app]). split; [reflexivity|].
       apply andb_true_iff in Hretry as [_ Hlt]. apply Nat.ltb_lt in Hlt.
       split; [exact Hlt|]. cbn. lia. }
  all: destruct (i =? retries) eqn:Hi'; [|destruct (bool_decide _)]; cbn beta iota;
    repeat (rewrite <- app_assoc; cbn [app]);
    first [ right; right; do 2 eexists; split; [reflexivity|reflexivity]
          | right; left; eexists; split; [reflexivity|];
            split; [apply Hlast; reflexivity|cbn; lia] ].
Qed.

(** A value the loop returns is the JSON of an ok response of one of the
    rounds it ran. *)
Lemma loop_sound (remaining i : nat) (tr tr' : list event) (v : jsval) :
  i + remaining = S retries -> i <= retries ->
  loop remaining i tr = (Eff.Returned v, tr') ->
  exists k r,
    i <= k <= retries /\ responses k = FetchResolved r /\
    ok r = true /\ is_json r = true /\ json r = Eff.Returned v.
Proof.
  revert i tr. induction remaining as [|rem IH]; intros i tr Hsum Hi Hrun.
  - lia.
  - cbn [wpFetch_loop] in Hrun. unfold Eff.bind at 1 in Hrun.
    destruct (attempt_cases i tr ltac:(lia))
      as [(v0 & r & rest & Ha & _ & Hr & Hok & Hct & Hj)
         |[(rest & Ha & Hlt & _)|(err & rest & Ha & _)]];
      rewrite Ha in Hrun.
    + unfold Eff.ret in Hrun. injection Hrun as <- _.
      exists i, r. split; [lia|auto].
    + destruct (IH (S i) (tr ++ rest) ltac:(lia) ltac:(lia) Hrun) as (k & r & Hk & Hrest).
      exists k, r. split; [lia|exact Hrest].
    + discriminate Hrun.
Qed.

(** The loop waits no longer than the backoff schedule allows. *)
Lemma loop_slept_bounded (remaining i : nat) (tr : list event) :
  i + remaining = S retries -> i <= retries ->
  (slept (snd (loop remaining i tr)) + 2 ^ N.of_nat i * 1000
   <= slept tr + 2 ^ N.of_nat retries * 1000)%N.
Proof.
  revert i tr. induction remaining as [|rem IH]; intros i tr Hsum Hi.
  - lia.
  - assert (Hpow : (2 ^ N.of_nat i <= 2 ^ N.of_nat retries)%N)
      by (apply N.pow_le_mono_r; lia).
    cbn [wpFetch_loop]. unfold Eff.bind at 1.
    destruct (attempt_cases i tr ltac:(lia))
      as [(v0 & r & rest & Ha & Hs & _)|[(rest & Ha & Hlt & Hs)|(err & rest & Ha & Hs)]];
      rewrite Ha.
    + unfold Eff.ret. cbn [snd]. rewrite slept_app, Hs. lia.
    + specialize (IH (S i) (tr ++ rest) ltac:(lia) ltac:(lia)).
      rewrite slept_app in IH.
      replace (N.of_nat (S i)) with (N.succ (N.of_nat i)) in IH by lia.
      rewrite N.pow_succ_r' in IH. lia.
    + cbn [snd]. rewrite slept_app, Hs. lia.
Qed.

End WpFetchMoreFacts.

Section WpFetchGuarantees.
Import JS Dashboard DashboardViews.

(** A returned value comes from an ok JSON response of some attempt. *)
Lemma wpFetch_configured_sound (cfg : wordpress_config) (responses : nat -> fetch_result)
    (endpoint method : jsstring) (body : option jsval) (retries : nat)
    (tr tr' : list event) (v : jsval) :
  wpFetch cfg responses endpoint method body retries tr = (Eff.Returned v, tr') ->
  exists k r,
    k <= retries /\ responses k = FetchResolved r /\
    ok r = true /\ is_json r = true /\ json r = Eff.Returned v.
Proof.
  rewrite wpFetch_configured.
  destruct (is_empty (wp_url cfg) || is_empty (wp_apiKey cfg)); [discriminate|].
  intros Hrun.
  destruct (loop_sound responses _ method body retries (S retries) 0 tr tr' v
              eq_refl ltac:(lia) Hrun) as (k & r & Hk & Hrest).
  exists k, r. split; [lia|exact Hrest].
Qed.

(** X16. What [wpFetch] returns is always the parsed JSON body of a
    response it received: a value comes back only when the site is
    configured and one of the attempts 0..retries got an ok response
    with a JSON content type whose body parsed to that value. *)
Theorem wpFetch_returns_only_ok_json (cfg : wordpress_config) (responses : nat -> fetch_result)
    (endpoint method : jsstring) (body : option jsval) (retries : nat)
    (tr tr' : list event) (v : jsval) :
  wpFetch cfg responses endpoint method body retries tr = (Eff.Returned v, tr') ->
  is_empty (wp_url cfg) = false /\ is_empty (wp_apiKey cfg) = false /\
  exists k r,
    k <= retries /\ responses k = FetchResolved r /\
    ok r = true /\ is_json r = true /\ json r = Eff.Returned v.
Proof.
  intros Hrun. pose proof Hrun as Hcfg. rewrite wpFetch_configured in Hcfg.
  destruct (is_empty (wp_url cfg)); [discriminate|].
  destruct (is_empty (wp_apiKey cfg)); [discriminate|].
  split; [reflexivity|]. split; [reflexivity|].
  exact (wpFetch_configured_sound _ _ _ _ _ _ _ _ _ Hrun).
Qed.

Lemma wpFetch_returns_only_ok_json_witness :
  let cfg := mkConfig (lit "https://cms.example") (lit "k3y") in
  let good := mkResponse 200 (lit "OK") (Some (lit "application/json")) (Eff.Returned JNull) in
  let responses := fun i : nat =>
    match i with
    | 0 => FetchResolved (mkResponse 502 (lit "Bad Gateway") None (Eff.Returned JNull))
    | _ => FetchResolved good
    end in
  let url := lit "https://cms.example/wp-json/enterprise-crm/v1/funnels" in
  let tr' := [SetTimeout 10000; Fetch url (lit "GET") None; ClearTimeout; Sleep 1000;
              SetTimeout 10000; Fetch url (lit "GET") None; ClearTimeout] in
  wpFetch cfg responses (lit "/funnels") (lit "GET") None 3 [] = (Eff.Returned JNull, tr') /\
  exists k r,
    k <= 3 /\ responses k = FetchResolved r /\
    ok r = true /\ is_json r = true /\ json r = Eff.Returned JNull.
Proof.
  intros cfg good responses url tr'.
  assert (Hrun : wpFetch cfg responses (lit "/funnels") (lit "GET") None 3 []
                 = (Eff.Returned JNull, tr')) by (vm_compute; reflexivity).
  split; [exact Hrun|].
  exact (proj2 (proj2 (wpFetch_returns_only_ok_json cfg responses (lit "/funnels") (lit "GET")
                         None 3 [] tr' JNull Hrun))).
Defined.

(** X17. The waits of one call add up to at most 2^retries - 1 seconds,
    whatever the server answers: at most 7 seconds with the default of
    3 retries. *)
Theorem wpFetch_total_backoff_bounded (cfg : wordpress_config)
    (responses : nat -> fetch_result) (endpoint method : jsstring) (body : option jsval)
    (retries : nat) :
  (slept (snd (wpFetch cfg responses endpoint method body retries []))
   <= (2 ^ N.of_nat retries - 1) * 1000)%N /\
  (slept (snd (wpFetch cfg responses endpoint method body default_retries [])) <= 7000)%N.
Proof.
  assert (Hgen : forall n,
    (slept (snd (wpFetch cfg responses endpoint method body n []))
     <= (2 ^ N.of_nat n - 1) * 1000)%N).
  { intros n. rewrite wpFetch_configured.
    destruct (is_empty (wp_url cfg) || is_empty (wp_apiKey cfg)).
    - cbn. lia.
    - pose proof (loop_slept_bounded responses
                    (wp_url cfg ++ lit "/wp-json/enterprise-crm/v1" ++ endpoint)
                    method body n (S n) 0 [] eq_refl ltac:(lia)) as H.
      change (slept []) with 0%N in H. change (N.of_nat 0) with 0%N in H.
      rewrite N.pow_0_r in H.
      assert (1 <= 2 ^ N.of_nat n)%N by (apply N.pow_lower_bound; lia).
      lia. }
  split; [apply Hgen|]. exact (Hgen default_retries).
Qed.

(** X18. Without a WordPress URL or API key the dashboard still loads:
    each of the three fetches throws before any request, and when the
    contacts query succeeds the state gets the contacts, empty
    campaigns, empty funnels and empty analytics, with no error. *)
Theorem dashboard_loads_without_wordpress_config (cfg : wordpress_config)
    (network : jsstring -> nat -> fetch_result) (supabase : option query_result)
    (isRefresh : bool) (st : state) (ui : ui_state) (cs : list row) :
  is_empty (wp_url cfg) = true \/ is_empty (wp_apiKey cfg) = true ->
  supabase_promise supabase = Eff.Returned cs ->
  (forall endpoint method body retries tr,
     wpFetch cfg (network endpoint) endpoint method body retries tr
     = (Eff.Thrown (Error (lit "WordPress configuration missing")), tr)) /\
  fst (fetchData cfg network supabase isRefresh (st, ui))
  = mkState cs (JArr []) (JArr []) (JObj ∅) false None 0.
Proof.
  intros Hcfg Hsupa.
  assert (Hmissing : is_empty (wp_url cfg) || is_empty (wp_apiKey cfg) = true).
  { destruct Hcfg as [H|H]; rewrite H; [reflexivity|apply orb_true_r]. }
  assert (Hthrow : forall endpoint method body retries tr,
     wpFetch cfg (network endpoint) endpoint method body retries tr
     = (Eff.Thrown (Error (lit "WordPress configuration missing")), tr)).
  { intros. rewrite wpFetch_configured, Hmissing. reflexivity. }
  split; [exact Hthrow|].
  unfold fetchData. rewrite !Hthrow, Hsupa. reflexivity.
Qed.

Lemma dashboard_loads_without_wordpress_config_witness :
  let cfg := mkConfig [] [] in
  let network := fun (_ : jsstring) (_ : nat) => FetchRejected (Error (lit "unreachable")) in
  let st := mkState [] JUndefined JUndefined JUndefined true None 0 in
  (is_empty (wp_url cfg) = true \/ is_empty (wp_apiKey cfg) = true) /\
  supabase_promise None = Eff.Returned [] /\
  fst (fetchData cfg network None false (st, mkUI false (lit "30d")))
  = mkState [] (JArr []) (JArr []) (JObj ∅) false None 0.
Proof.
  intros cfg network st.
  assert (Hcfg : is_empty (wp_url cfg) = true \/ is_empty (wp_apiKey cfg) = true)
    by (left; reflexivity).
  assert (Hsupa : supabase_promise None = Eff.Returned []) by reflexivity.
  split; [exact Hcfg|]. split; [exact Hsupa|].
  exact (proj2 (dashboard_loads_without_wordpress_config cfg network None false st
                  (mkUI false (lit "30d")) [] Hcfg Hsupa)).
Defined.

(** The fetches of a call are the request it was asked to make. *)
Lemma no_attempt_no_fetch (P : event -> Prop) (rest : list event) :
  (forall e, match e with Fetch _ _ _ => True | _ => P e end) ->
  attempts_made rest = 0 -> Forall P rest.
Proof.
  intros HP. unfold attempts_made. induction rest as [|e rest IH]; intros Hnone.
  - constructor.
  - cbn [List.filter] in Hnone. pose proof (HP e) as He.
    destruct e; cbn [length] in Hnone; try discriminate Hnone;
      (constructor; [exact He|exact (IH Hnone)]).
Qed.

Lemma loop_fetches_the_request (responses : nat -> fetch_result) (url method : jsstring)
    (body : option jsval) (retries remaining i : nat) (tr : list event) :
  let asked e := match e with
                 | Fetch u m b => u = url /\ m = method /\ b = body
                 | _ => True
                 end in
  Forall asked tr ->
  Forall asked (snd (wpFetch_loop responses url method body retries remaining i tr)).
Proof.
  intros asked. revert i tr. induction remaining as [|rem IH]; intros i tr Htr.
  - exact Htr.
  - cbn [wpFetch_loop]. unfold Eff.bind at 1.
    destruct (attempt_trace responses url method body retries i tr) as (rest & Hrest & Hnone).
    assert (Hall : Forall asked (tr ++ [SetTimeout 10000; Fetch url method body] ++ rest)).
    { apply Forall_app. split; [exact Htr|].
      apply Forall_app. split.
      - repeat constructor.
      - apply no_attempt_no_fetch; [intros [];exact I|exact Hnone]. }
    rewrite app_assoc in Hall.
    destruct (attempt responses url method body retries i tr) as [[[v|]|err] tr'];
      cbn [snd] in *; subst tr'.
    + exact Hall.
    + apply IH. exact Hall.
    + exact Hall.
Qed.

(** X19. [handleTriggerFunnel] never rejects and reports what [wpFetch]
    did. When [wpFetch] returns a value, the result is success = the
    value's truthiness with the value as data, and the value is the body
    of an ok JSON response to one of the attempts; when [wpFetch] throws,
    also for a missing configuration, the result is success false with
    the error's message. Every request of the call is a POST of the
    contact ids to the funnel's trigger URL, and there are at most
    four. *)
Theorem trigger_funnel_reports_what_wpFetch_did (cfg : wordpress_config)
    (responses : nat -> fetch_result) (funnelId : jsstring) (contactIds : jsval) :
  let endpoint := lit "/funnels/" ++ funnelId ++ lit "/trigger" in
  let body := Some (JObj (<["contactIds" := contactIds]> ∅)) in
  let url := wp_url cfg ++ lit "/wp-json/enterprise-crm/v1" ++ endpoint in
  let run := handleTriggerFunnel cfg responses funnelId contactIds [] in
  match wpFetch cfg responses endpoint (lit "POST") body 3 [] with
  | (Eff.Returned v, tr') =>
      run = (Eff.Returned (mkResult (truthy v) (Some v) None), tr') /\
      exists k r,
        k <= 3 /\ responses k = FetchResolved r /\
        ok r = true /\ is_json r = true /\ json r = Eff.Returned v
  | (Eff.Thrown err, tr') =>
      run = (Eff.Returned (mkResult false None (Some (message err))), tr')
  end /\
  (if is_empty (wp_url cfg) || is_empty (wp_apiKey cfg)
   then run = (Eff.Returned
                 (mkResult false None (Some (lit "WordPress configuration missing"))), [])
   else 1 <= attempts_made (snd run)) /\
  attempts_made (snd run) <= 4 /\
  Forall (fun e => match e with
                   | Fetch u m b => u = url /\ m = lit "POST" /\ b = body
                   | _ => True
                   end) (snd run).
Proof.
  intros endpoint body url run.
  assert (Hrun : run =
                 match wpFetch cfg responses endpoint (lit "POST") body 3 [] with
                 | (Eff.Returned v, tr') =>
                     (Eff.Returned (mkResult (truthy v) (Some v) None), tr')
                 | (Eff.Thrown err, tr') =>
                     (Eff.Returned (mkResult false None (Some (message err))), tr')
                 end).
  { subst run. unfold handleTriggerFunnel, Eff.try_catch, Eff.bind, Eff.ret, default_retries.
    fold endpoint body.
    destruct (wpFetch cfg responses endpoint (lit "POST") body 3 []) as [[v|err] tr'];
      reflexivity. }
  assert (Htrace : snd run = snd (wpFetch cfg responses endpoint (lit "POST") body 3 [])).
  { rewrite Hrun.
    destruct (wpFetch cfg responses endpoint (lit "POST") body 3 []) as [[v|err] tr'];
      reflexivity. }
  split; [|split; [|split]].
  - rewrite Hrun.
    destruct (wpFetch cfg responses endpoint (lit "POST") body 3 []) as [[v|err] tr'] eqn:Hw;
      [|reflexivity].
    split; [reflexivity|].
    exact (wpFetch_configured_sound _ _ _ _ _ _ _ _ _ Hw).
  - rewrite Htrace, Hrun, wpFetch_configured.
    destruct (is_empty (wp_url cfg) || is_empty (wp_apiKey cfg)); [reflexivity|].
    cbn [wpFetch_loop]. unfold Eff.bind at 1. fold url.
    destruct (attempt_trace responses url (lit "POST") body 3 0 []) as (rest & Hrest & _).
    pose proof (loop_attempts_bounded responses url (lit "POST") body 3) as Hle.
    destruct (attempt responses url (lit "POST") body 3 0 []) as [[[v|]|err] tr'];
      cbn [snd] in *; subst tr'.
    + unfold Eff.ret. cbn [snd]. rewrite attempts_made_app. cbn. lia.
    + assert (Hmono : forall remaining i tr,
                attempts_made tr
                <= attempts_made (snd (wpFetch_loop responses url (lit "POST") body 3
                                         remaining i tr))).
      { induction remaining as [|rem IH]; intros i tr;
          [cbn [wpFetch_loop]; unfold Eff.ret; cbn [snd]; lia|].
        cbn [wpFetch_loop]. unfold Eff.bind at 1.
        destruct (attempt_trace responses url (lit "POST") body 3 i tr)
          as (rest' & Hrest' & _).
        destruct (attempt responses url (lit "POST") body 3 i tr) as [[[v|]|err] tr'];
          cbn [snd] in *; subst tr'.
        - unfold Eff.ret. cbn [snd]. rewrite !attempts_made_app. lia.
        - specialize (IH (S i) ((tr ++ [SetTimeout 10000; Fetch url (lit "POST") body])
                                ++ rest')).
          rewrite !attempts_made_app in IH. lia.
        - rewrite !attempts_made_app. lia. }
      specialize (Hmono 3 1 (([] ++ [SetTimeout 10000; Fetch url (lit "POST") body]) ++ rest)).
      rewrite !attempts_made_app in Hmono. cbn in Hmono. cbn. lia.
    + rewrite attempts_made_app. cbn. lia.
  - rewrite Htrace.
    exact (wpFetch_attempts_bounded cfg responses endpoint (lit "POST") body 3).
  - rewrite Htrace, wpFetch_configured.
    destruct (is_empty (wp_url cfg) || is_empty (wp_apiKey cfg)); [constructor|].
    fold url. apply loop_fetches_the_request. constructor.
Qed.

Lemma trigger_funnel_reports_what_wpFetch_did_witness :
  let cfg := mkConfig (lit "https://cms.example") (lit "k3y") in
  let responses := fun i : nat =>
    match i with
    | 0 => FetchResolved (mkResponse 503 (lit "Service Unavailable") None (Eff.Returned JNull))
    | _ => FetchResolved (mkResponse 200 (lit "OK") (Some (lit "application/json"))
                                     (Eff.Returned (JBool true)))
    end in
  let run := handleTriggerFunnel cfg responses (lit "12") (JArr [JNum 7]) [] in
  fst run = Eff.Returned (mkResult true (Some (JBool true)) None) /\
  attempts_made (snd run) <= 4.
Proof.
  intros cfg responses run.
  destruct (trigger_funnel_reports_what_wpFetch_did cfg responses (lit "12") (JArr [JNum 7]))
    as (Hrun & _ & Hle & _).
  split; [|exact Hle].
  assert (Hw : wpFetch cfg responses (lit "/funnels/" ++ lit "12" ++ lit "/trigger") (lit "POST")
                 (Some (JObj (<["contactIds" := JArr [JNum 7]]> ∅))) 3 []
               = (Eff.Returned (JBool true),
                  snd (wpFetch cfg responses (lit "/funnels/" ++ lit "12" ++ lit "/trigger")
                         (lit "POST") (Some (JObj (<["contactIds" := JArr [JNum 7]]> ∅))) 3 [])))
    by (vm_compute; reflexivity).
  rewrite Hw in Hrun. destruct Hrun as [Hrun _]. fold run in Hrun. now rewrite Hrun.
Defined.

End WpFetchGuarantees.

(** ** The data load and the error screen *)
Section LoadFacts.
Import JS Dashboard DashboardViews.

(** One load whose contacts query fails. *)
Lemma failing_load (cfg : wordpress_config) (network : jsstring -> nat -> fetch_result)
    (q : query_result) (err : js_error) (isRefresh : bool) (st : state) (ui : ui_state) :
  query_error q = Some err ->
  fetchData cfg network (Some q) isRefresh (st, ui) =
  (mkState (contacts st) (campaigns st) (funnels st) (analytics st) false
           (Some (match message err with [] => lit "Failed to load data" | m => m end))
           (retryCount st + 1),
   mkUI false (selectedTimeRange ui)).
Proof.
  intros Hq. unfold fetchData, supabase_promise. rewrite Hq. reflexivity.
Qed.

Lemma failing_loads (cfg : wordpress_config) (network : jsstring -> nat -> fetch_result)
    (q : query_result) (err : js_error) (flags : list bool) (st : state) (ui : ui_state) :
  query_error q = Some err ->
  let after := fst (fold_left (fun s r => fetchData cfg network (Some q) r s) flags (st, ui)) in
  retryCount after = retryCount st + length flags /\
  (contacts after, campaigns after, funnels after, analytics after)
  = (contacts st, campaigns st, funnels st, analytics st) /\
  (flags = [] \/ exists c m, error after = Some (c :: m)).
Proof.
  intros Hq. induction flags as [|r flags IH] using rev_ind; cbn zeta.
  - cbn. split; [lia|]. split; [reflexivity|]. left. reflexivity.
  - rewrite fold_left_app. cbn [fold_left].
    destruct (fold_left _ flags (st, ui)) as [st' ui'] eqn:Hfold.
    cbn zeta in IH. cbn [fst] in IH. destruct IH as (Hcount & Hsame & _).
    rewrite (failing_load cfg network q err r st' ui' Hq). cbn [fst retryCount contacts
      campaigns funnels analytics error].
    rewrite length_app. cbn [length]. split; [lia|]. split; [exact Hsame|].
    right. destruct (message err) as [|c m]; [cbv|]; eauto.
Qed.

(** X15. Each load whose contacts query fails raises the retry count by
    one and keeps the data on screen. After at least one such load the
    error screen shows exactly when the count has reached 3. The first
    load that succeeds afterwards resets the count and clears the
    screen. *)
Theorem failed_loads_raise_the_error_screen (cfg : wordpress_config)
    (network : jsstring -> nat -> fetch_result) (q : query_result) (err : js_error)
    (flags : list bool) (st : state) (ui : ui_state) :
  query_error q = Some err -> flags <> [] ->
  let failed := fold_left (fun s r => fetchData cfg network (Some q) r s) flags (st, ui) in
  retryCount (fst failed) = retryCount st + length flags /\
  (contacts (fst failed), campaigns (fst failed), funnels (fst failed), analytics (fst failed))
  = (contacts st, campaigns st, funnels st, analytics st) /\
  shows_error_screen (fst failed) = (3 <=? retryCount st + length flags) /\
  forall supabase isRefresh,
    match supabase_promise supabase with
    | Eff.Returned _ =>
        let recovered := fst (fetchData cfg network supabase isRefresh failed) in
        retryCount recovered = 0 /\ shows_error_screen recovered = false
    | Eff.Thrown _ => True
    end.
Proof.
  intros Hq Hne failed.
  destruct (failing_loads cfg network q err flags st ui Hq) as (Hcount & Hsame & Herr).
  fold failed in Hcount, Hsame, Herr.
  split; [exact Hcount|]. split; [exact Hsame|]. split.
  - destruct Herr as [->|(c & m & Herr)]; [contradiction|].
    unfold shows_error_screen. now rewrite Herr, Hcount.
  - intros supabase isRefresh. destruct failed as [st' ui'].
    unfold fetchData. destruct (supabase_promise supabase); [|exact I].
    cbn. auto.
Qed.

Lemma failed_loads_raise_the_error_screen_witness :
  let cfg := mkConfig (lit "https://cms.example") (lit "k3y") in
  let network := fun (_ : jsstring) (_ : nat) => FetchRejected (Error (lit "offline")) in
  let q := mkQuery None (Some (Error (lit "JWT expired"))) in
  let st := mkState [] (JArr []) (JArr []) (JObj ∅) true None 0 in
  let failed :=
    fold_left (fun s r => fetchData cfg network (Some q) r s) [false; false; true]
              (st, mkUI false (lit "30d")) in
  query_error q = Some (Error (lit "JWT expired")) /\
  [false; false; true] <> [] /\
  retryCount (fst failed) = 3 /\ shows_error_screen (fst failed) = true.
Proof.
  intros cfg network q st failed.
  assert (Hq : query_error q = Some (Error (lit "JWT expired"))) by reflexivity.
  assert (Hne : [false; false; true] <> []) by discriminate.
  split; [exact Hq|]. split; [exact Hne|].
  destruct (failed_loads_raise_the_error_screen cfg network q (Error (lit "JWT expired"))
              [false; false; true] st (mkUI false (lit "30d")) Hq Hne)
    as (Hcount & _ & Hscreen & _).
  split; [exact Hcount|exact Hscreen].
Defined.

End LoadFacts.

(** ** The Groq client *)
Section GroqFacts.
Import JS Groq.

Variable responses : nat -> fetch_result.
Variable endpoint : jsstring.
Variable data : jsval.
Variable retries : nat.

Local Abbreviation loop := (makeRequest_loop responses endpoint data retries).
Local Abbreviation fetch := (Fetch (baseURL ++ endpoint) data).

(** One round of the loop, by the outcome of its [try] block. *)
Lemma round_run (remaining attempt : nat) (tr : list event) :
  loop (S remaining) attempt tr =
  match outcome responses attempt with
  | Eff.Returned v => (Eff.Returned v, tr ++ [fetch])
  | Eff.Thrown err =>
      if attempt =? retries then (Eff.Thrown err, tr ++ [fetch])
      else loop remaining (S attempt)
             (tr ++ [fetch; Sleep (2 ^ N.of_nat attempt * 1000)%N])
  end.
Proof.
  cbn [makeRequest_loop].
  unfold try_once, outcome, Eff.try_catch, Eff.bind, emit, Eff.modify, await, Eff.ret,
    Eff.throw; cbn beta iota.
  destruct (responses attempt) as [r|err]; cbn beta iota.
  - destruct (ok r); cbn [negb].
    + destruct (json r) as [v|err]; cbn beta iota; [reflexivity|].
      destruct (attempt =? retries); cbn beta iota; [reflexivity|].
      now rewrite <- app_assoc.
    + destruct (text r) as [t|err]; cbn beta iota;
        (destruct (attempt =? retries); cbn beta iota; [reflexivity|]);
        now rewrite <- app_assoc.
  - destruct (attempt =? retries); cbn beta iota; [reflexivity|].
    now rewrite <- app_assoc.
Qed.

Lemma failed_rounds_step (from count : nat) :
  failed_rounds endpoint data from (S count) =
  [fetch; Sleep (2 ^ N.of_nat from * 1000)%N] ++ failed_rounds endpoint data (S from) count.
Proof. reflexivity. Qed.

(** Rounds that fail while retries remain are followed by their wait and
    the next round. *)
Lemma loop_skips_failures (count from remaining : nat) (tr : list event) :
  from + count <= retries ->
  (forall j, from <= j < from + count -> exists err, outcome responses j = Eff.Thrown err) ->
  loop (count + S remaining) from tr =
  loop (S remaining) (from + count) (tr ++ failed_rounds endpoint data from count).
Proof.
  revert from tr. induction count as [|count IH]; intros from tr Hle Hfail.
  - cbn [Nat.add]. rewrite Nat.add_0_r. unfold failed_rounds. cbn. now rewrite app_nil_r.
  - change (S count + S remaining) with (S (count + S remaining)).
    rewrite round_run.
    destruct (Hfail from ltac:(lia)) as (err & ->).
    assert (Hne : (from =? retries) = false) by (apply Nat.eqb_neq; lia).
    rewrite Hne, IH.
    + rewrite failed_rounds_step, <- app_assoc. f_equal. lia.
    + lia.
    + intros j Hj. apply Hfail. lia.
Qed.

Lemma groq_slept_app (a b : list event) : slept (a ++ b) = (slept a + slept b)%N.
Proof.
  unfold slept. induction a as [|e a IH]; cbn; [reflexivity|].
  destruct e; cbn; rewrite ?IH; lia.
Qed.

Lemma groq_fetches_app (a b : list event) : fetches (a ++ b) = fetches a + fetches b.
Proof. unfold fetches. now rewrite List.filter_app, length_app. Qed.

(** The failed rounds 0..count-1 took count fetches and 2^count - 1
    seconds of waiting. *)
Lemma failed_rounds_cost (from count : nat) :
  fetches (failed_rounds endpoint data from count) = count /\
  (slept (failed_rounds endpoint data from count) + 2 ^ N.of_nat from * 1000
   = 2 ^ N.of_nat (from + count) * 1000)%N.
Proof.
  revert from. induction count as [|count IH]; intros from.
  - cbn. rewrite Nat.add_0_r. split; [reflexivity|lia].
  - rewrite failed_rounds_step, groq_fetches_app, groq_slept_app.
    destruct (IH (S from)) as [Hf Hs]. rewrite Hf. split; [reflexivity|].
    assert (Hpow : (2 ^ N.of_nat (S from) = 2 * 2 ^ N.of_nat from)%N).
    { replace (N.of_nat (S from)) with (N.succ (N.of_nat from)) by lia.
      apply N.pow_succ_r'. }
    replace (from + S count) with (S from + count) by lia.
    rewrite <- Hs, Hpow. cbn [slept fold_right app]. lia.
Qed.

(** X20. [makeRequest] returns the JSON of the first attempt that
    succeeds: when attempts 0..k-1 fail in any way (network error, error
    status, unreadable body) and attempt k <= retries succeeds, the
    result is that attempt's JSON after k+1 fetches, with a wait of 2^j
    seconds after each failed attempt j, 2^k - 1 seconds in all. Unlike
    the dashboard's helper it retries every kind of failure. *)
Theorem groq_request_returns_first_success (k : nat) (v : jsval) :
  k <= retries ->
  (forall j, j < k -> exists err, outcome responses j = Eff.Thrown err) ->
  outcome responses k = Eff.Returned v ->
  makeRequest responses endpoint data retries [] =
  (Eff.Returned v, failed_rounds endpoint data 0 k ++ [fetch]) /\
  fetches (failed_rounds endpoint data 0 k ++ [fetch]) = k + 1 /\
  slept (failed_rounds endpoint data 0 k ++ [fetch]) = ((2 ^ N.of_nat k - 1) * 1000)%N.
Proof.
  intros Hk Hfail Hok. split; [|split].
  - unfold makeRequest.
    replace (S retries) with (k + S (retries - k)) by lia.
    rewrite loop_skips_failures; [|lia|intros j Hj; apply Hfail; lia].
    cbn [Nat.add app]. rewrite round_run, Hok. reflexivity.
  - rewrite groq_fetches_app. destruct (failed_rounds_cost 0 k) as [-> _]. reflexivity.
  - rewrite groq_slept_app. destruct (failed_rounds_cost 0 k) as [_ Hs].
    cbn [Nat.add] in Hs. change (N.of_nat 0) with 0%N in Hs. rewrite N.pow_0_r in Hs.
    cbn [slept fold_right].
    assert (1 <= 2 ^ N.of_nat k)%N by (apply N.pow_lower_bound; lia). lia.
Qed.

(** X21. When every attempt fails, [makeRequest] throws the error of
    the last one, after retries + 1 fetches and 2^retries - 1 seconds of
    waiting: 3 fetches and 3 seconds with the default of 2 retries. No
    wait follows the last attempt. *)
Theorem groq_request_gives_up_with_last_error (err : js_error) :
  (forall j, j < retries -> exists e, outcome responses j = Eff.Thrown e) ->
  outcome responses retries = Eff.Thrown err ->
  makeRequest responses endpoint data retries [] =
  (Eff.Thrown err, failed_rounds endpoint data 0 retries ++ [fetch]) /\
  fetches (failed_rounds endpoint data 0 retries ++ [fetch]) = retries + 1 /\
  slept (failed_rounds endpoint data 0 retries ++ [fetch])
  = ((2 ^ N.of_nat retries - 1) * 1000)%N.
Proof.
  intros Hfail Hlast. split; [|split].
  - unfold makeRequest.
    replace (S retries) with (retries + 1) by lia.
    rewrite loop_skips_failures; [|lia|intros j Hj; apply Hfail; lia].
    cbn [Nat.add app]. rewrite round_run, Hlast, Nat.eqb_refl. reflexivity.
  - rewrite groq_fetches_app. destruct (failed_rounds_cost 0 retries) as [-> _]. reflexivity.
  - rewrite groq_slept_app. destruct (failed_rounds_cost 0 retries) as [_ Hs].
    cbn [Nat.add] in Hs. change (N.of_nat 0) with 0%N in Hs. rewrite N.pow_0_r in Hs.
    cbn [slept fold_right].
    assert (1 <= 2 ^ N.of_nat retries)%N by (apply N.pow_lower_bound; lia). lia.
Qed.

End GroqFacts.

Section GroqRuns.
Import JS Groq.

Local Abbreviation rate_limited :=
  (FetchResolved (mkResponse 429 (Eff.Returned (lit "rate limit")) (Eff.Returned JNull))).
Local Abbreviation completed :=
  (FetchResolved (mkResponse 200 (Eff.Returned []) (Eff.Returned (JStr (lit "done"))))).

Lemma groq_request_returns_first_success_witness :
  let responses := fun i : nat => match i with 0 => rate_limited | _ => completed end in
  1 <= default_retries /\
  (forall j, j < 1 -> exists err, outcome responses j = Eff.Thrown err) /\
  outcome responses 1 = Eff.Returned (JStr (lit "done")) /\
  makeRequest responses (lit "/chat/completions") JNull default_retries [] =
  (Eff.Returned (JStr (lit "done")),
   [Fetch (lit "https://api.groq.com/openai/v1/chat/completions") JNull; Sleep 1000;
    Fetch (lit "https://api.groq.com/openai/v1/chat/completions") JNull]).
Proof.
  intros responses.
  assert (Hk : 1 <= default_retries) by (unfold default_retries; lia).
  assert (Hfail : forall j, j < 1 -> exists err, outcome responses j = Eff.Thrown err).
  { intros j Hj. replace j with 0 by lia. eexists. reflexivity. }
  assert (Hok : outcome responses 1 = Eff.Returned (JStr (lit "done"))) by reflexivity.
  split; [exact Hk|]. split; [exact Hfail|]. split; [exact Hok|].
  exact (proj1 (groq_request_returns_first_success responses (lit "/chat/completions") JNull
                  default_retries 1 (JStr (lit "done")) Hk Hfail Hok)).
Defined.

Lemma groq_request_gives_up_with_last_error_witness :
  let responses := fun _ : nat => rate_limited in
  (forall j, j < default_retries -> exists e, outcome responses j = Eff.Thrown e) /\
  outcome responses default_retries = Eff.Thrown (Error (lit "HTTP 429: rate limit")) /\
  makeRequest responses (lit "/chat/completions") JNull default_retries [] =
  (Eff.Thrown (Error (lit "HTTP 429: rate limit")),
   [Fetch (lit "https://api.groq.com/openai/v1/chat/completions") JNull; Sleep 1000;
    Fetch (lit "https://api.groq.com/openai/v1/chat/completions") JNull; Sleep 2000;
    Fetch (lit "https://api.groq.com/openai/v1/chat/completions") JNull]).
Proof.
  intros responses.
  assert (Hfail : forall j, j < default_retries ->
                            exists e, outcome responses j = Eff.Thrown e).
  { intros j _. eexists. reflexivity. }
  assert (Hlast : outcome responses default_retries
                  = Eff.Thrown (Error (lit "HTTP 429: rate limit"))) by reflexivity.
  split; [exact Hfail|]. split; [exact Hlast|].
  exact (proj1 (groq_request_gives_up_with_last_error responses (lit "/chat/completions") JNull
                  default_retries (Error (lit "HTTP 429: rate limit")) Hfail Hlast)).
Defined.

End GroqRuns.

(** ** The email parser *)
Section EmailParserFacts.
Import JS EmailParser.

Lemma trim_start_head (s : jsstring) :
  match trim_start s with [] => True | c :: _ => is_space c = false end.
Proof.
  induction s as [|c s IH]; cbn; [exact I|].
  destruct (is_space c) eqn:Hc; [exact IH|exact Hc].
Qed.

Lemma trim_start_keeps_last (l : jsstring) (c : N) :
  is_space c = false -> trim_start (l ++ [c]) = trim_start l ++ [c].
Proof.
  intros Hc. induction l as [|x l IH]; cbn.
  - now rewrite Hc.
  - destruct (is_space x); [exact IH|reflexivity].
Qed.

(** [trim] leaves no white space at either end. *)
Lemma trim_tight (s : jsstring) : tight (trim s).
Proof.
  unfold tight, trim. rewrite rev_involutive. split; [|apply trim_start_head].
  pose proof (trim_start_head s) as Hhead.
  destruct (trim_start s) as [|c t]; [exact I|].
  cbn [rev]. rewrite (trim_start_keeps_last _ _ Hhead), rev_app_distr. exact Hhead.
Qed.

Lemma scan_app (a b : list jsstring) (st : scan) :
  fold_left scan_line (a ++ b) st = fold_left scan_line b (fold_left scan_line a st).
Proof. apply fold_left_app. Qed.

(** Before the body marker nothing is collected. *)
Lemma scan_header (header : list jsstring) (st : scan) :
  inBody st = false -> body st = [] ->
  Forall (fun l => mentions l "subject:" || negb (mentions l "body:") = true) header ->
  inBody (fold_left scan_line header st) = false /\ body (fold_left scan_line header st) = [].
Proof.
  intros Hin Hb Hall. revert st Hin Hb.
  induction Hall as [|l header Hl Hall IH]; intros st Hin Hb; cbn [fold_left]; [auto|].
  apply IH; unfold scan_line;
    destruct (mentions l "subject:"); cbn [orb] in Hl; cbn; auto;
    apply negb_true_iff in Hl; rewrite Hl, Hin; cbn; auto.
Qed.

(** After the marker every line that mentions no subject is collected,
    each with a line feed. *)
Lemma scan_body (rest : list jsstring) (st : scan) :
  inBody st = true ->
  inBody (fold_left scan_line rest st) = true /\
  body (fold_left scan_line rest st) =
  body st ++ concat (map (fun l => l ++ [10%N])
                         (List.filter (fun l => negb (mentions l "subject:")) rest)).
Proof.
  revert st. induction rest as [|l rest IH]; intros st Hin; cbn [fold_left].
  - cbn. now rewrite app_nil_r.
  - cbn [List.filter]. unfold scan_line at 2 4.
    destruct (mentions l "subject:"); cbn [negb].
    + destruct (IH (mkScan (trim (remove_marker (lit "subject:") l)) (body st) (inBody st)) Hin)
        as [H1 H2]. split; [exact H1|exact H2].
    + rewrite Hin, orb_true_r. cbn [negb].
      destruct (IH (mkScan (subject st) (body st ++ l ++ [10%N]) true) eq_refl) as [H1 H2].
      split; [exact H1|]. rewrite H2. cbn [body map concat]. now rewrite <- !app_assoc.
Qed.

(** Lines that mention no subject leave the subject alone. *)
Lemma scan_keeps_subject (lines : list jsstring) (st : scan) :
  Forall (fun l => mentions l "subject:" = false) lines ->
  subject (fold_left scan_line lines st) = subject st.
Proof.
  intros Hall. revert st. induction Hall as [|l lines Hl Hall IH]; intros st; [reflexivity|].
  cbn [fold_left]. rewrite IH. unfold scan_line. rewrite Hl.
  destruct (mentions l "body:" || inBody st); [destruct (negb (inBody st))|]; reflexivity.
Qed.

(** The subject is empty or trimmed at every point of the scan. *)
Lemma scan_subject_tight (lines : list jsstring) (st : scan) :
  tight (subject st) -> tight (subject (fold_left scan_line lines st)).
Proof.
  revert st. induction lines as [|l lines IH]; intros st Hst; [exact Hst|].
  cbn [fold_left]. apply IH. unfold scan_line.
  destruct (mentions l "subject:"); [apply trim_tight|].
  destruct (mentions l "body:" || inBody st); [destruct (negb (inBody st))|]; exact Hst.
Qed.

(** X22. What the parser takes for the body. When the first line that
    mentions "body:" without mentioning "subject:" is [marker], the body
    is made of the lines after it that mention no "subject:", each
    followed by a line feed, and trimmed; the marker line itself
    contributes nothing, also when text follows the marker on that line.
    When that leaves nothing, the body is the whole content. *)
Theorem body_is_the_lines_after_the_marker (content : jsstring)
    (header rest : list jsstring) (marker : jsstring) :
  split_lines content = header ++ marker :: rest ->
  Forall (fun l => mentions l "subject:" || negb (mentions l "body:") = true) header ->
  mentions marker "subject:" = false -> mentions marker "body:" = true ->
  parts_body (parseEmailContent content) =
  or_default
    (trim (concat (map (fun l => l ++ [10%N])
                       (List.filter (fun l => negb (mentions l "subject:")) rest))))
    content.
Proof.
  intros Hlines Hheader Hns Hb. unfold parseEmailContent. cbn [parts_body].
  rewrite Hlines, scan_app. cbn [fold_left].
  destruct (scan_header header (mkScan [] [] false) eq_refl eq_refl Hheader) as [Hin Hbody].
  set (st := fold_left scan_line header (mkScan [] [] false)) in *.
  assert (Hmark : scan_line st marker = mkScan (subject st) [] true).
  { unfold scan_line. rewrite Hns, Hb, Hin, Hbody. reflexivity. }
  rewrite Hmark.
  destruct (scan_body rest (mkScan (subject st) [] true) eq_refl) as [_ ->].
  reflexivity.
Qed.

Lemma body_is_the_lines_after_the_marker_witness :
  let content := lit "Subject: Hi" ++ [10%N] ++ lit "Body: Dear Ann," ++ [10%N]
                 ++ lit "see you  " ++ [10%N] in
  split_lines content = [lit "Subject: Hi"] ++ lit "Body: Dear Ann," :: [lit "see you  "; []] /\
  Forall (fun l => mentions l "subject:" || negb (mentions l "body:") = true)
         [lit "Subject: Hi"] /\
  mentions (lit "Body: Dear Ann,") "subject:" = false /\
  mentions (lit "Body: Dear Ann,") "body:" = true /\
  parts_body (parseEmailContent content) = lit "see you".
Proof.
  intros content.
  assert (H1 : split_lines content
               = [lit "Subject: Hi"] ++ lit "Body: Dear Ann," :: [lit "see you  "; []])
    by reflexivity.
  assert (H2 : Forall (fun l => mentions l "subject:" || negb (mentions l "body:") = true)
                      [lit "Subject: Hi"]) by (repeat constructor).
  assert (H3 : mentions (lit "Body: Dear Ann,") "subject:" = false) by reflexivity.
  assert (H4 : mentions (lit "Body: Dear Ann,") "body:" = true) by reflexivity.
  split; [exact H1|]. split; [exact H2|]. split; [exact H3|]. split; [exact H4|].
  rewrite (body_is_the_lines_after_the_marker content _ _ _ H1 H2 H3 H4). reflexivity.
Defined.

(** X23. Without a body marker the whole content is the body: when no
    line mentions "body:" other than lines that also mention "subject:",
    the body returned is the content, unchanged and with its subject
    line still in it. *)
Theorem content_without_marker_is_the_body (content : jsstring) :
  Forall (fun l => mentions l "subject:" || negb (mentions l "body:") = true)
         (split_lines content) ->
  parts_body (parseEmailContent content) = content.
Proof.
  intros Hall. unfold parseEmailContent. cbn [parts_body].
  destruct (scan_header (split_lines content) (mkScan [] [] false) eq_refl eq_refl Hall)
    as [_ ->].
  reflexivity.
Qed.

Lemma content_without_marker_is_the_body_witness :
  let content := lit "Subject: Hi" ++ [10%N] ++ lit "Dear Ann, see you" in
  Forall (fun l => mentions l "subject:" || negb (mentions l "body:") = true)
         (split_lines content) /\
  parts_body (parseEmailContent content) = content.
Proof.
  intros content.
  assert (Hall : Forall (fun l => mentions l "subject:" || negb (mentions l "body:") = true)
                        (split_lines content)) by (repeat constructor).
  split; [exact Hall|].
  exact (content_without_marker_is_the_body content Hall).
Defined.

(** X24. The subject comes from the last line that mentions "subject:",
    wherever it stands, also after the body marker: it is that line
    without its leftmost marker and the white space after it, trimmed,
    or "Your Next Step" when nothing is left. *)
Theorem subject_is_taken_from_the_last_subject_line (content : jsstring)
    (before after : list jsstring) (line : jsstring) :
  split_lines content = before ++ line :: after ->
  mentions line "subject:" = true ->
  Forall (fun l => mentions l "subject:" = false) after ->
  parts_subject (parseEmailContent content)
  = or_default (trim (remove_marker (lit "subject:") line)) (lit "Your Next Step").
Proof.
  intros Hlines Hline Hafter. unfold parseEmailContent. cbn [parts_subject].
  rewrite Hlines, scan_app. cbn [fold_left].
  rewrite (scan_keeps_subject after _ Hafter).
  unfold scan_line. rewrite Hline. reflexivity.
Qed.

Lemma subject_is_taken_from_the_last_subject_line_witness :
  let content := lit "subject: Draft" ++ [10%N] ++ lit "Body:" ++ [10%N]
                 ++ lit "Re SUBJECT:   Real one " ++ [10%N] ++ lit "bye" in
  split_lines content
  = [lit "subject: Draft"; lit "Body:"] ++ lit "Re SUBJECT:   Real one " :: [lit "bye"] /\
  mentions (lit "Re SUBJECT:   Real one ") "subject:" = true /\
  Forall (fun l => mentions l "subject:" = false) [lit "bye"] /\
  parts_subject (parseEmailContent content) = lit "Re Real one".
Proof.
  intros content.
  assert (H1 : split_lines content
               = [lit "subject: Draft"; lit "Body:"] ++ lit "Re SUBJECT:   Real one "
                 :: [lit "bye"]) by reflexivity.
  assert (H2 : mentions (lit "Re SUBJECT:   Real one ") "subject:" = true) by reflexivity.
  assert (H3 : Forall (fun l => mentions l "subject:" = false) [lit "bye"])
    by (repeat constructor).
  split; [exact H1|]. split; [exact H2|]. split; [exact H3|].
  rewrite (subject_is_taken_from_the_last_subject_line content _ _ _ H1 H2 H3). reflexivity.
Defined.

(** X25. The parser never hands back a blank part. The subject is never
    empty and has no white space at either end. The body is either the
    content as it came, or a non-empty text with no white space at
    either end. *)
Theorem parsed_parts_are_never_blank (content : jsstring) :
  let parts := parseEmailContent content in
  parts_subject parts <> [] /\ tight (parts_subject parts) /\
  (parts_body parts = content \/
   (parts_body parts <> [] /\ tight (parts_body parts))).
Proof.
  cbv zeta. unfold parseEmailContent. cbn [parts_subject parts_body].
  set (final := fold_left scan_line (split_lines content) (mkScan [] [] false)).
  assert (Hsubject : tight (subject final)).
  { apply scan_subject_tight. unfold tight. cbn. auto. }
  split; [|split].
  - destruct (subject final); cbn; [cbv|]; discriminate.
  - destruct (subject final); [unfold tight; cbv; auto|exact Hsubject].
  - pose proof (trim_tight (body final)) as Hbody.
    destruct (trim (body final)) as [|c t]; [left; reflexivity|].
    right. split; [discriminate|exact Hbody].
Qed.

End EmailParserFacts.

(** ** The lead workflow *)
Section LeadWorkflowFacts.
Import JS LeadWorkflow.

Ltac run_workflow :=
  unfold run, process, Eff.try_catch, Eff.bind, emit, Eff.modify, await, Eff.ret,
    Eff.throw; cbn beta iota.

(** X26. Whatever goes wrong in the lead workflow, the caller sees the
    same error: a failed run always rejects with the ReferenceError
    "leadData is not defined" raised in its own catch block, never with
    the error that caused it, and it sends neither an error record nor
    an admin alert. A lead without email or first_name fails this way
    before anything is upserted. *)
Theorem lead_workflow_failures_end_in_reference_error (a : apps) (data : option lead)
    (tr : list event) :
  exists added,
    snd (run a data tr) = tr ++ added /\ reports added = 0 /\
    match fst (run a data tr) with
    | Eff.Returned _ => True
    | Eff.Thrown err => err = mkError (lit "ReferenceError") (lit "leadData is not defined")
    end /\
    match data with
    | Some l =>
        if missing (email l) || missing (first_name l)
        then upserts added = [] /\ exists err, fst (run a data tr) = Eff.Thrown err
        else length (upserts added) = 1
    | None => upserts added = [] /\ exists err, fst (run a data tr) = Eff.Thrown err
    end.
Proof.
  run_workflow.
  destruct data as [l|]; cbn beta iota.
  2: { eexists. split; [reflexivity|]. cbn. eauto. }
  destruct (missing (email l) || missing (first_name l)); cbn beta iota.
  1: { eexists. split; [reflexivity|]. cbn. eauto. }
  match goal with |- context [upsert a ?r] => set (row := r) end.
  destruct (supabaseError (upsert a row)); cbn beta iota.
  1: { eexists. split; [rewrite <- app_assoc; reflexivity|]. cbn. auto. }
  destruct (addSubscriber a) as [[]|e1]; cbn beta iota;
    (destruct (generateContent a) as [g|e2]; cbn beta iota;
     [destruct (contact_id (upsert a row)) as [id|]; cbn beta iota;
      [destruct (triggerFunnelSequence a) as [[]|e3]; cbn beta iota;
       [destruct (logActivity a) as [[]|e4]; cbn beta iota|]|]|]);
    eexists; (split; [repeat (rewrite <- app_assoc; cbn [app]); reflexivity|]);
    cbn; auto.
Qed.

(** X27. A MailRelay failure does not stop a lead: when the upsert, the
    content generation, the funnel trigger and the activity log succeed,
    the run succeeds whether or not the subscription did. It upserts one
    row, with the source defaulting to "unknown" and last name and phone
    to the empty string, and triggers the funnel that
    [determineFunnelType] gives for the lead's source. *)
Theorem lead_is_processed_despite_mailrelay (a : apps) (l : lead) (id : jsval)
    (generated : jsval) (tr : list event) :
  missing (email l) = false -> missing (first_name l) = false ->
  (forall row, upsert a row = mkUpserted (Some id) None) ->
  generateContent a = Eff.Returned generated ->
  triggerFunnelSequence a = Eff.Returned tt ->
  logActivity a = Eff.Returned tt ->
  exists added row,
    run a (Some l) tr
    = (Eff.Returned (mkSummary id (determineFunnelType (source l))), tr ++ added) /\
    upserts added = [row] /\
    row_source row = or_string (source l) (lit "unknown") /\
    row_last_name row = or_string (last_name l) [] /\
    row_phone row = or_string (phone l) [] /\
    In (TriggerFunnel id (determineFunnelType (source l))) added.
Proof.
  intros He Hf Hup Hgen Htrig Hlog. run_workflow.
  rewrite He, Hf. cbn [orb]. cbn beta iota. rewrite !Hup.
  cbn [supabaseError contact_id]. cbn beta iota.
  rewrite Hgen, Htrig, Hlog.
  destruct (addSubscriber a) as [[]|e1]; cbn beta iota;
    do 2 eexists; (split; [repeat (rewrite <- app_assoc; cbn [app]); reflexivity|]);
    cbn; repeat split; auto 10.
Qed.

Lemma lead_is_processed_despite_mailrelay_witness :
  let a := mkApps (fun _ => mkUpserted (Some (JNum 12)) None)
                  (Eff.Thrown (Error (lit "MailRelay 503")))
                  (Eff.Returned (JStr (lit "Welcome!")))
                  (Eff.Returned tt) (Eff.Returned tt) in
  let l := mkLead (Some (lit "ann@example.org")) (Some (lit "Ann")) None None
                  (Some (lit "webinar")) JUndefined JUndefined in
  missing (email l) = false /\ missing (first_name l) = false /\
  (forall row, upsert a row = mkUpserted (Some (JNum 12)) None) /\
  generateContent a = Eff.Returned (JStr (lit "Welcome!")) /\
  triggerFunnelSequence a = Eff.Returned tt /\ logActivity a = Eff.Returned tt /\
  fst (run a (Some l) [])
  = Eff.Returned (mkSummary (JNum 12) (Sequence (lit "webinar_followup_sequence"))).
Proof.
  intros a l.
  assert (He : missing (email l) = false) by reflexivity.
  assert (Hf : missing (first_name l) = false) by reflexivity.
  assert (Hup : forall row, upsert a row = mkUpserted (Some (JNum 12)) None)
    by (intros; reflexivity).
  assert (Hgen : generateContent a = Eff.Returned (JStr (lit "Welcome!"))) by reflexivity.
  assert (Htrig : triggerFunnelSequence a = Eff.Returned tt) by reflexivity.
  assert (Hlog : logActivity a = Eff.Returned tt) by reflexivity.
  repeat (split; [assumption|]).
  destruct (lead_is_processed_despite_mailrelay a l (JNum 12) (JStr (lit "Welcome!")) []
              He Hf Hup Hgen Htrig Hlog) as (added & row & Hrun & _).
  rewrite Hrun. reflexivity.
Defined.

End LeadWorkflowFacts.

(** ** The funnel workflow *)
Section FunnelWorkflowFacts.
Import JS FunnelWorkflow.



Ltac run_round :=
  unfold process_journey, advance, executeStep, Eff.try_catch, Eff.bind, emit, Eff.modify,
    await, Eff.ret, Eff.throw; cbn beta iota.

Ltac tidy_round := repeat (rewrite <- app_assoc; cbn [app]).




(** X29. How a round treats the next step by its type. A step of type
    delay runs no handler and, once its time is computed, moves the
    journey one step on. A step of a type the switch does not know is
    never run and never moves the journey: the round counts an error
    and records "Unknown step type: ..." for it. A journey with no next
    step is completed, not updated. *)
Theorem round_dispatches_by_step_type (a : apps) (p e : nat) (j : journey)
    (tr : list event) :
  match next_step j with
  | None =>
      match completeJourney a j with
      | Eff.Returned _ =>
          process_journey a (p, e) j tr
          = (Eff.Returned (S p, e), tr ++ [Completing (journey_id j)])
      | Eff.Thrown _ => True
      end
  | Some s =>
      if bool_decide (step_type s ∈ handled) then True
      else if bool_decide (step_type s = lit "delay") then
        match calculateNextStepTime a s with
        | Eff.Returned t =>
            process_journey a (p, e) j tr
            = (Eff.Returned (S p, e),
               tr ++ [Updated (journey_id j) (PrimFloat.add (current_step j) 1) t])
        | Eff.Thrown _ => True
        end
      else
        let err := Error (lit "Unknown step type: " ++ step_type s) in
        let logged := tr ++ [ConsoleError (message err); LoggingError (journey_id j) err] in
        process_journey a (p, e) j tr
        = match logError a j with
          | Eff.Returned _ => (Eff.Returned (p, S e), logged)
          | Eff.Thrown err' => (Eff.Thrown err', logged)
          end
  end.
Proof.
  run_round.
  destruct (next_step j) as [s|]; cbn beta iota.
  - destruct (bool_decide (step_type s ∈ handled)); [exact I|]. cbn beta iota.
    destruct (bool_decide (step_type s = lit "delay")); cbn beta iota.
    + destruct (calculateNextStepTime a s) as [t|e2]; [|exact I]. reflexivity.
    + destruct (logError a j) as [[]|e3]; cbn beta iota; tidy_round; reflexivity.
  - destruct (completeJourney a j) as [[]|e1]; [|exact I]. reflexivity.
Qed.

End FunnelWorkflowFacts.
